(** * Ethoscope: the interactors and the monitor loop

    A shallow embedding of
    - [ethoscope/tracking/interactors.py]: [BaseInteractorSync],
      [SleepDepInteractor], [IsMovingInteractor] and the prototype
      [BaseInteractor];
    - [ethoscope/core/monitor.py]: [Monitor] and [TrackerFrame].

    Python objects are records, mutation is explicit state passing in a
    small state-and-exception monad, a [dict] is a [gmap].

    Numbers.  Time stamps, channels and the quantised distance
    [xy_dist_log10x1000] are integers ([Z]).  Python floats are taken as
    exact numbers: coordinates and thresholds are rationals ([Q]), and the
    two float comparisons of the source are decided by exact arithmetic;
    [np_abs_lt_spec] and [decode_gt_spec] relate the two deciders to the
    real-number expressions of the source ([sqrt], [10 ** _]).  Rounding
    is outside the model.  Console output ([print]) is not modelled. *)

From Stdlib Require Import ZArith QArith Qreals Reals Lra Lia List String.
From stdpp Require Import base option list gmap strings.
Import ListNotations.

Local Open Scope Z_scope.

(** ** Python results and a state-and-exception monad *)

Inductive exn : Type :=
| ValueError (msg : string)
| NotImplementedError (msg : string)
| AttributeError
| IndexError
| ExternalError (what : string).

Inductive result (A : Type) : Type :=
| Ok (a : A)
| Raise (e : exn).
Arguments Ok {A} a.
Arguments Raise {A} e.

(** A method of an object of state [S]: it returns or raises, and leaves
    the object in a new state either way (what was assigned before a
    [raise] stays assigned). *)
Definition M (S A : Type) : Type := S -> result A * S.

Definition ret {S A} (a : A) : M S A := fun s => (Ok a, s).
Definition raise {S A} (e : exn) : M S A := fun s => (Raise e, s).
Definition bind {S A B} (c : M S A) (k : A -> M S B) : M S B :=
  fun s => match c s with
           | (Ok a, s') => k a s'
           | (Raise e, s') => (Raise e, s')
           end.
Definition get {S} : M S S := fun s => (Ok s, s).
Definition modify {S} (f : S -> S) : M S unit := fun s => (Ok tt, f s).
Definition lift_option {S A} (e : exn) (o : option A) : M S A :=
  match o with Some a => ret a | None => raise e end.

Notation "'let*' x ':=' c 'in' k" := (bind c (fun x => k))
  (at level 10, x pattern, c at level 200, k at level 200).
Notation "c ;; k" := (bind c (fun _ => k))
  (at level 100, k at level 200, right associativity).

(** [l[-k]] for [k >= 1]; out of range is Python's [IndexError]. *)
Definition py_index_neg {A} (l : list A) (k : nat) : option A :=
  if decide (k ≤ length l)%nat then l !! (length l - k)%nat else None.

(** ** Exact arithmetic for the two float tests *)

Definition Qltb (a b : Q) : bool := negb (Qle_bool b a).

Record complex : Type := Complex { re : Q; im : Q }.

Definition complex_sub (a b : complex) : complex :=
  {| re := re a - re b; im := im a - im b |}.

(** [np.abs(z) < th]: the modulus is non-negative, so the test is false
    for [th <= 0] and compares squares otherwise. *)
Definition np_abs_lt (z : complex) (th : Q) : bool :=
  Qltb 0 th && Qltb (re z * re z + im z * im z) (th * th).

(** [10.0 ** (v / 1000.0) > th]: true for [th <= 0]; for [th = p/q > 0]
    it is [10^v > (p/q)^1000], with the negative exponent moved to the
    other side. *)
Definition decode_gt (v : Z) (th : Q) : bool :=
  if Qle_bool th 0 then true
  else Qnum th ^ 1000 * 10 ^ Z.max 0 (- v)
       <? Z.pos (Qden th) ^ 1000 * 10 ^ Z.max 0 v.



(** ** The tracker as the interactors see it

    An interactor reads two attributes of the tracker it is bound to:
    the list of positions and the list of time stamps, one per tracked
    frame.  A position is indexed by variable name in the source; the
    record keeps the three variables the interactors read. *)

Record DataPoint : Type := {
  x : Q;
  y : Q;
  xy_dist_log10x1000 : Z
}.

Record Tracker : Type := {
  positions : list DataPoint;
  times : list Z
}.

Definition kwargs : Type := gmap string Z.

(** [HasInteractedVariable(b)]: a boolean variable whose header name is
    "has_interacted"; its truth value is [b]. *)
Definition HasInteractedVariable (b : bool) : bool := b.

(** ** BaseInteractorSync *)

Definition no_tracker_msg : string :=
  "No tracker bound to this interactor. Use `bind_tracker()` methods".

(** An interactor object: the attribute of the base class and the
    attributes [F] its subclass adds. *)
Record BaseInteractorSync (F : Type) : Type := {
  _tracker : option Tracker;
  fields : F
}.
Arguments _tracker {F} _.
Arguments fields {F} _.

(** The two methods a subclass provides. *)
Class InteractorSync (F : Type) : Type := {
  _run : M (BaseInteractorSync F) (bool * kwargs);
  _interact : kwargs -> M (BaseInteractorSync F) unit
}.

(** What [__call__] does once the tracker check has passed. *)
Definition call_body {F} `{InteractorSync F}
  : M (BaseInteractorSync F) (bool * kwargs) :=
  let* out := _run in
  let '(interact, result) := out in
  (if interact then _interact result else ret tt);;
  ret (interact, result).

Definition __call__ {F} `{InteractorSync F}
  : M (BaseInteractorSync F) (bool * kwargs) :=
  fun self =>
    match _tracker self with
    | None => raise (ValueError no_tracker_msg) self
    | Some _ => call_body self
    end.

Definition bind_tracker {F} (tracker : Tracker) (self : BaseInteractorSync F)
  : BaseInteractorSync F :=
  {| _tracker := Some tracker; fields := fields self |}.

(** The base class itself: both methods raise. *)
#[export] Instance BaseInteractorSync_methods : InteractorSync unit := {
  _run := raise (NotImplementedError "");
  _interact := fun _ => raise (NotImplementedError "")
}.

(** Reading the history of the bound tracker; on an unbound interactor
    the attribute access fails. *)
Definition tracker_of {F} : M (BaseInteractorSync F) Tracker :=
  fun self => lift_option AttributeError (_tracker self) self.

(** ** SleepDepInteractor *)

(** The sleep-depriver interface belongs to the hardware layer.  It is
    represented by what the interactor can observe of it: which calls
    raise, and the calls that went through. *)
Record SleepDepriverInterface : Type := {
  deprive_raises : kwargs -> option exn;
  deprived : list kwargs
}.

Definition deprive (kw : kwargs) (i : SleepDepriverInterface)
  : result unit * SleepDepriverInterface :=
  match deprive_raises i kw with
  | Some e => (Raise e, i)
  | None => (Ok tt, {| deprive_raises := deprive_raises i;
                       deprived := deprived i ++ [kw] |})
  end.

Record SleepDep : Type := {
  _sleep_dep_interface : SleepDepriverInterface;
  _t0 : option Z;
  _channel : Z;
  _distance_threshold : Q;
  _inactivity_time_threshold : Z
}.

Definition SleepDepInteractor : Type := BaseInteractorSync SleepDep.

Definition SleepDepInteractor_init (channel : Z) (sd_interface : SleepDepriverInterface)
  : SleepDepInteractor :=
  {| _tracker := None;
     fields := {| _sleep_dep_interface := sd_interface;
                  _t0 := None;
                  _channel := channel;
                  _distance_threshold := 1 # 100;
                  _inactivity_time_threshold := 90 |} |}.

Definition set_t0 (v : option Z) (self : SleepDepInteractor) : SleepDepInteractor :=
  {| _tracker := _tracker self;
     fields := {| _sleep_dep_interface := _sleep_dep_interface (fields self);
                  _t0 := v;
                  _channel := _channel (fields self);
                  _distance_threshold := _distance_threshold (fields self);
                  _inactivity_time_threshold := _inactivity_time_threshold (fields self) |} |}.

Definition set_interface (i : SleepDepriverInterface) (self : SleepDepInteractor)
  : SleepDepInteractor :=
  {| _tracker := _tracker self;
     fields := {| _sleep_dep_interface := i;
                  _t0 := _t0 (fields self);
                  _channel := _channel (fields self);
                  _distance_threshold := _distance_threshold (fields self);
                  _inactivity_time_threshold := _inactivity_time_threshold (fields self) |} |}.

Definition channel_kw (self : SleepDepInteractor) : kwargs :=
  {[ "channel"%string := _channel (fields self) ]}.

Definition xy (p : DataPoint) : complex := {| re := x p; im := y p |}.


Definition SleepDep_interact (kw : kwargs) : M SleepDepInteractor unit :=
  fun self =>
    let '(r, i) := deprive kw (_sleep_dep_interface (fields self)) in
    (r, set_interface i self).

Definition SleepDep_run : M SleepDepInteractor (bool * kwargs) :=
  let* tr := tracker_of in
  let* self := get in
  let positions := positions tr in
  let t := times tr in
  if decide (length positions < 2)%nat then ret (false, channel_kw self)
  else
    let* tail_m := lift_option IndexError (py_index_neg positions 1) in
    let xy_m := xy tail_m in
    let* tail_mm := lift_option IndexError (py_index_neg positions 2) in
    let xy_mm := xy tail_mm in
    if np_abs_lt (complex_sub xy_m xy_mm) (_distance_threshold (fields self)) then
      let* now := lift_option IndexError (py_index_neg t 1) in
      match _t0 (fields self) with
      | None =>
          modify (set_t0 (Some now));;
          ret (false, channel_kw self)
      | Some t0 =>
          if now - t0 >? _inactivity_time_threshold (fields self) then
            modify (set_t0 None);;
            ret (true, channel_kw self)
          else ret (false, channel_kw self)
      end
    else
      modify (set_t0 None);;
      ret (false, channel_kw self).


#[export] Instance SleepDepInteractor_methods : InteractorSync SleepDep := {
  _run := SleepDep_run;
  _interact := SleepDep_interact
}.

(** *** A sequence of evaluations

    The interactor holds a reference to its tracker, whose history grows
    between two evaluations: the [n]-th evaluation sees [history n].
    [state_before n] is the interactor before that evaluation and
    [decision n] what the evaluation returns. *)
Section Evaluations.

Variable history : nat -> Tracker.
Variable start : SleepDepInteractor.

Definition evaluate (n : nat) (self : SleepDepInteractor)
  : result (bool * kwargs) * SleepDepInteractor :=
  _run (bind_tracker (history n) self).

Fixpoint state_before (n : nat) : SleepDepInteractor :=
  match n with
  | O => start
  | S n => snd (evaluate n (state_before n))
  end.

Definition decision (n : nat) : result (bool * kwargs) :=
  fst (evaluate n (state_before n)).

End Evaluations.

(** An evaluation returned "act". *)
Definition acts (r : result (bool * kwargs)) : bool :=
  match r with Ok (true, _) => true | _ => false end.

(** ** IsMovingInteractor *)

Record IsMoving : Type := {
  _last_active : Z;
  _speed_threshold : Q;
  _sleep_dt_threshold : Q
}.

Definition IsMovingInteractor : Type := BaseInteractorSync IsMoving.


Definition set_last_active (v : Z) (self : IsMovingInteractor) : IsMovingInteractor :=
  {| _tracker := _tracker self;
     fields := {| _last_active := v;
                  _speed_threshold := _speed_threshold (fields self);
                  _sleep_dt_threshold := _sleep_dt_threshold (fields self) |} |}.

Definition IsMoving_interact (kw : kwargs) : M IsMovingInteractor unit := ret tt.

Definition IsMoving_run : M IsMovingInteractor (bool * kwargs) :=
  let* tr := tracker_of in
  let* self := get in
  let positions := positions tr in
  let t := times tr in
  if decide (length positions < 2)%nat then ret (HasInteractedVariable false, ∅)
  else
    let* tail_m := lift_option IndexError (py_index_neg positions 1) in
    if decode_gt (xy_dist_log10x1000 tail_m) (_speed_threshold (fields self)) then
      let* now := lift_option IndexError (py_index_neg t 1) in
      modify (set_last_active now);;
      ret (HasInteractedVariable false, ∅)
    else ret (HasInteractedVariable true, ∅).

#[export] Instance IsMovingInteractor_methods : InteractorSync IsMoving := {
  _run := IsMoving_run;
  _interact := IsMoving_interact
}.


(** ** The prototype BaseInteractor (asynchronous dispatch) *)

Module Prototype.

(** A [multiprocessing.Process] as the interactor sees it: whether it
    is alive, and the keyword arguments it was started with (none for
    the placeholder [Process()] of the class attribute). *)
Record Process : Type := {
  is_alive : bool;
  started_with : option kwargs
}.

Record BaseInteractor (T F : Type) : Type := {
  _tracker : option Tracker;
  _subprocess : Process;
  _target : option T;
  fields : F
}.
Arguments _tracker {T F} _.
Arguments _subprocess {T F} _.
Arguments _target {T F} _.
Arguments fields {T F} _.

Class Interactor (T F : Type) : Type := {
  _run : M (BaseInteractor T F) (bool * kwargs)
}.

Definition bind_tracker {T F} (tracker : Tracker) (self : BaseInteractor T F)
  : BaseInteractor T F :=
  {| _tracker := Some tracker;
     _subprocess := _subprocess self;
     _target := _target self;
     fields := fields self |}.

Definition _interact_async {T F} (kw : kwargs) : M (BaseInteractor T F) unit :=
  fun self =>
    if is_alive (_subprocess self) then (Ok tt, self)
    else match _target self with
         | None => (Ok tt, self)
         | Some _ =>
             (Ok tt, {| _tracker := _tracker self;
                        _subprocess := {| is_alive := true; started_with := Some kw |};
                        _target := _target self;
                        fields := fields self |})
         end.

Definition call_body {T F} `{Interactor T F} : M (BaseInteractor T F) bool :=
  let* out := _run in
  let '(interact, result) := out in
  (if interact then _interact_async result else ret tt);;
  let result := <[ "interact"%string := Z.b2z interact ]> result in
  ret interact.

Definition __call__ {T F} `{Interactor T F} : M (BaseInteractor T F) bool :=
  fun self =>
    match _tracker self with
    | None => raise (ValueError no_tracker_msg) self
    | Some _ => call_body self
    end.

(** The base class itself. *)
#[export] Instance BaseInteractor_methods T : Interactor T unit := {
  _run := raise (NotImplementedError "")
}.

End Prototype.

(** ** Monitor

    The camera, the regions of interest, the tracking units, the result
    writer and the drawer are collaborators of the monitor whose code is
    elsewhere.  Their types are variables, the methods of the tracking
    unit that the monitor calls are the operations of [UnitOps], and a
    sink is represented by the calls it refuses (raises on); every call
    to a collaborator is recorded, in order, in a list of events. *)

Section MonitorModel.

Context {Frame ROI Stimulator TrackerClass TrackingUnit DataRow : Type}.

Class UnitOps : Type := {
  TrackingUnit_init : TrackerClass -> ROI -> option Stimulator -> TrackingUnit;
  track : Z -> Frame -> TrackingUnit -> result (list DataRow) * TrackingUnit;
  get_last_positions : bool -> TrackingUnit -> list DataRow;
  roi : TrackingUnit -> ROI;
  idx : ROI -> Z
}.
Context {ops : UnitOps}.

Record ResultWriter : Type := {
  write_raises : Z -> ROI -> list DataRow -> option exn;
  flush_raises : Z -> Frame -> option exn
}.

Record Drawer : Type := {
  draw_raises : Frame -> gmap Z (list DataRow) -> list TrackingUnit -> option exn
}.

Inductive Event : Type :=
| Pull (i : nat) (t : Z) (frame : Frame)
| TrackAll (t : Z) (frame : Frame)
| Write (t : Z) (r : ROI) (data_rows : list DataRow)
| Flush (t : Z) (frame : Frame)
| Draw (frame : Frame) (last_positions : gmap Z (list DataRow))
       (unit_trackers : list TrackingUnit).

Record Monitor : Type := {
  _camera : list (Z * Frame);
  _last_frame_idx : nat;
  _force_stop : bool;
  _last_positions : gmap Z (list DataRow);
  _last_time_stamp : Z;
  _is_running : bool;
  _unit_trackers : list TrackingUnit;
  _frame_buffer : option Frame;
  _last_t : option Z
}.

Definition zip {A B} (l : list A) (k : list B) : list (A * B) := combine l k.

Definition new_monitor (camera : list (Z * Frame)) (units : list TrackingUnit) : Monitor :=
  {| _camera := camera; _last_frame_idx := 0; _force_stop := false;
     _last_positions := ∅; _last_time_stamp := 0; _is_running := false;
     _unit_trackers := units; _frame_buffer := None; _last_t := None |}.

(** [Monitor.__init__]; [None] is an argument left at its default. *)
Definition Monitor_init (camera : list (Z * Frame)) (tracker_class : TrackerClass)
    (rois : option (list ROI)) (stimulators : option (list Stimulator))
  : result Monitor :=
  match rois with
  | None => Raise (NotImplementedError "rois must exist (cannot be None)")
  | Some rois =>
      match stimulators with
      | None =>
          Ok (new_monitor camera
                (map (fun r => TrackingUnit_init tracker_class r None) rois))
      | Some stimulators =>
          if decide (length stimulators = length rois) then
            Ok (new_monitor camera
                  (map (fun '(r, inter) => TrackingUnit_init tracker_class r (Some inter))
                       (zip rois stimulators)))
          else Raise (ValueError "You should have one interactor per ROI")
      end
  end.

Definition last_positions (self : Monitor) : gmap Z (list DataRow) :=
  _last_positions self.

Definition last_time_stamp (self : Monitor) : Q :=
  inject_Z (_last_time_stamp self) / inject_Z 1000.

Definition last_frame_idx (self : Monitor) : nat := _last_frame_idx self.

Definition stop (self : Monitor) : Monitor :=
  {| _camera := _camera self; _last_frame_idx := _last_frame_idx self;
     _force_stop := true;
     _last_positions := _last_positions self;
     _last_time_stamp := _last_time_stamp self; _is_running := _is_running self;
     _unit_trackers := _unit_trackers self; _frame_buffer := _frame_buffer self;
     _last_t := _last_t self |}.

Definition set_is_running (b : bool) (self : Monitor) : Monitor :=
  {| _camera := _camera self; _last_frame_idx := _last_frame_idx self;
     _force_stop := _force_stop self;
     _last_positions := _last_positions self;
     _last_time_stamp := _last_time_stamp self; _is_running := b;
     _unit_trackers := _unit_trackers self; _frame_buffer := _frame_buffer self;
     _last_t := _last_t self |}.

Definition set_current (i : nat) (t : Z) (frame : Frame) (self : Monitor) : Monitor :=
  {| _camera := _camera self; _last_frame_idx := i;
     _force_stop := _force_stop self;
     _last_positions := _last_positions self;
     _last_time_stamp := t; _is_running := _is_running self;
     _unit_trackers := _unit_trackers self; _frame_buffer := Some frame;
     _last_t := _last_t self |}.

Definition set_unit_trackers (us : list TrackingUnit) (self : Monitor) : Monitor :=
  {| _camera := _camera self; _last_frame_idx := _last_frame_idx self;
     _force_stop := _force_stop self;
     _last_positions := _last_positions self;
     _last_time_stamp := _last_time_stamp self; _is_running := _is_running self;
     _unit_trackers := us; _frame_buffer := _frame_buffer self;
     _last_t := _last_t self |}.

Definition set_last_position (k : Z) (v : list DataRow) (self : Monitor) : Monitor :=
  {| _camera := _camera self; _last_frame_idx := _last_frame_idx self;
     _force_stop := _force_stop self;
     _last_positions := <[ k := v ]> (_last_positions self);
     _last_time_stamp := _last_time_stamp self; _is_running := _is_running self;
     _unit_trackers := _unit_trackers self; _frame_buffer := _frame_buffer self;
     _last_t := _last_t self |}.

Definition set_last_t (t : Z) (self : Monitor) : Monitor :=
  {| _camera := _camera self; _last_frame_idx := _last_frame_idx self;
     _force_stop := _force_stop self;
     _last_positions := _last_positions self;
     _last_time_stamp := _last_time_stamp self; _is_running := _is_running self;
     _unit_trackers := _unit_trackers self; _frame_buffer := _frame_buffer self;
     _last_t := Some t |}.

(** The state of a run: the monitor and the calls made so far. *)
Definition RunState : Type := Monitor * list Event.

Definition on_monitor (f : Monitor -> Monitor) : M RunState unit :=
  modify (fun st => (f (fst st), snd st)).

(** A call to a collaborator: recorded, then it returns or raises. *)
Definition call_out (e : Event) (raises : option exn) : M RunState unit :=
  modify (fun st => (fst st, snd st ++ [e]));;
  match raises with Some err => raise err | None => ret tt end.

(** *** TrackerFrame *)

Record TrackerFrame : Type := { t : Z; frame : Frame }.

Definition TrackingResult : Type := list DataRow * ROI * list DataRow.

Definition TrackerFrame_run (self : TrackerFrame) (track_u : TrackingUnit)
  : result TrackingResult * TrackingUnit :=
  match track (t self) (frame self) track_u with
  | (Ok data_rows, track_u) =>
      let abs_pos := get_last_positions true track_u in
      (Ok (data_rows, roi track_u, abs_pos), track_u)
  | (Raise e, track_u) => (Raise e, track_u)
  end.

(** [Pool.map]: one result per unit, in the order of the units; the
    units are independent of each other, so the schedule of the four
    workers does not show in the results.  A unit that raises fails
    the whole map. *)
Fixpoint pool_map (f : TrackingUnit -> result TrackingResult * TrackingUnit)
    (units : list TrackingUnit) : result (list TrackingResult) * list TrackingUnit :=
  match units with
  | [] => (Ok [], [])
  | u :: us =>
      match f u with
      | (Ok r, u') =>
          match pool_map f us with
          | (Ok rs, us') => (Ok (r :: rs), u' :: us')
          | (Raise e, us') => (Raise e, u' :: us')
          end
      | (Raise e, u') => (Raise e, u' :: us)
      end
  end.

Definition track_units (tf : TrackerFrame) : M RunState (list TrackingResult) :=
  fun st =>
    let '(r, us) := pool_map (TrackerFrame_run tf) (_unit_trackers (fst st)) in
    (r, (set_unit_trackers us (fst st), snd st ++ [TrackAll (t tf) (frame tf)])).

(** *** Monitor.run *)

(** The [for data_rows, roi, abs_pos in trackingResults] loop. *)
Fixpoint aggregate (result_writer : option ResultWriter) (t : Z)
    (trackingResults : list TrackingResult) : M RunState unit :=
  match trackingResults with
  | [] => ret tt
  | (data_rows, roi, abs_pos) :: rest =>
      if decide (length data_rows = 0)%nat then
        on_monitor (set_last_position (idx roi) []);;
        aggregate result_writer t rest
      else
        on_monitor (set_last_position (idx roi) abs_pos);;
        match result_writer with
        | Some w => call_out (Write t roi data_rows) (write_raises w t roi data_rows)
        | None => ret tt
        end;;
        aggregate result_writer t rest
  end.

(** The body of the [for] loop after the stop test.  [stop_called]
    tells whether another thread calls [stop()] while this frame is
    being processed: nothing in the body reads the flag, so where in
    the body the call lands makes no difference. *)
Definition process_frame (result_writer : option ResultWriter) (drawer : option Drawer)
    (stop_called : bool) (i : nat) (t : Z) (frame : Frame) : M RunState unit :=
  on_monitor (set_current i t frame);;
  (if stop_called then on_monitor stop else ret tt);;
  let trackerFrame := {| t := t; frame := frame |} in
  let* trackingResults := track_units trackerFrame in
  aggregate result_writer t trackingResults;;
  match result_writer with
  | Some w => call_out (Flush t frame) (flush_raises w t frame)
  | None => ret tt
  end;;
  match drawer with
  | Some d =>
      let* st := get in
      call_out (Draw frame (_last_positions (fst st)) (_unit_trackers (fst st)))
               (draw_raises d frame (_last_positions (fst st)) (_unit_trackers (fst st)))
  | None => ret tt
  end;;
  on_monitor (set_last_t t).

(** [for i, (t, frame) in enumerate(self._camera)]: the frame is taken
    from the camera, then the flag is tested.  [stops k] tells whether
    [stop()] is called during frame [k]. *)
Fixpoint run_loop (result_writer : option ResultWriter) (drawer : option Drawer)
    (stops : nat -> bool) (i : nat) (camera : list (Z * Frame)) : M RunState unit :=
  match camera with
  | [] => ret tt
  | (t, frame) :: rest =>
      modify (fun st => (fst st, snd st ++ [Pull i t frame]));;
      let* st := get in
      if _force_stop (fst st) then ret tt
      else
        process_frame result_writer drawer (stops i) i t frame;;
        run_loop result_writer drawer stops (S i) rest
  end.

(** [try ... except Exception: raise ... finally: _is_running = False]. *)
Definition run (result_writer : option ResultWriter) (drawer : option Drawer)
    (stops : nat -> bool) : M RunState unit :=
  fun st =>
    let st := (set_is_running true (fst st), snd st) in
    let '(r, st) := run_loop result_writer drawer stops 0 (_camera (fst st)) st in
    (r, (set_is_running false (fst st), snd st)).

End MonitorModel.

Arguments UnitOps : clear implicits.
Arguments ResultWriter : clear implicits.
Arguments Drawer : clear implicits.
Arguments Event : clear implicits.
Arguments Monitor : clear implicits.
Arguments RunState : clear implicits.
Arguments TrackerFrame : clear implicits.
Arguments TrackingResult : clear implicits.

(** ** Concrete objects used to exercise the theorems *)

Definition point (px py : Q) : DataPoint :=
  {| x := px; y := py; xy_dist_log10x1000 := 0 |}.


(** An interface whose calls all go through, and one that is
    disconnected: every call raises. *)
Definition working_interface : SleepDepriverInterface :=
  {| deprive_raises := fun _ => None; deprived := [] |}.

Definition broken_interface : SleepDepriverInterface :=
  {| deprive_raises := fun _ => Some (ExternalError "serial port closed");
     deprived := [] |}.

(** The history of the example of the specification: the animal at
    (0, 0) at time 0 and at (0.001, 0.001) at time 95. *)
Definition history_1 : Tracker :=
  {| positions := [point 0 0]; times := [0] |}.

Definition history_2 : Tracker :=
  {| positions := [point 0 0; point (1 # 1000) (1 # 1000)]; times := [0; 95] |}.

Definition far_history : Tracker :=
  {| positions := [point 0 0; point 1 1]; times := [0; 95] |}.

Definition fresh_sleep_dep : SleepDepInteractor :=
  SleepDepInteractor_init 3 working_interface.




(** An animal that never moves, seen every 50 time units: evaluation
    [n] sees [n + 2] positions. *)
Definition still_history (n : nat) : Tracker :=
  {| positions := replicate (n + 2) (point 0 0);
     times := map (fun i => 50 * Z.of_nat i) (seq 0 (n + 2)) |}.

(** *** What one frame leaves behind

    The entry a tracking result puts in the map of last positions, the
    map after a list of results, and the calls a frame is expected to
    make to the sinks. *)
Section MonitorObservations.

Context {Frame ROI Stimulator TrackerClass TrackingUnit DataRow : Type}.
Context {ops : UnitOps Frame ROI Stimulator TrackerClass TrackingUnit DataRow}.

Definition result_roi (r : TrackingResult ROI DataRow) : ROI := snd (fst r).

Definition has_rows (r : TrackingResult ROI DataRow) : bool :=
  negb (Nat.eqb (length (fst (fst r))) 0).

Definition entry_of (r : TrackingResult ROI DataRow) : list DataRow :=
  if has_rows r then snd r else [].

Definition update_last_positions (results : list (TrackingResult ROI DataRow))
    (self : Monitor Frame TrackingUnit DataRow) : Monitor Frame TrackingUnit DataRow :=
  fold_left (fun m r => set_last_position (idx (result_roi r)) (entry_of r) m)
            results self.

Definition write_events (result_writer : option (ResultWriter Frame ROI DataRow))
    (t : Z) (results : list (TrackingResult ROI DataRow))
  : list (Event Frame ROI TrackingUnit DataRow) :=
  match result_writer with
  | Some _ => map (fun r => Write t (result_roi r) (fst (fst r)))
                  (List.filter has_rows results)
  | None => []
  end.

Definition flush_events (result_writer : option (ResultWriter Frame ROI DataRow))
    (t : Z) (frame : Frame) : list (Event Frame ROI TrackingUnit DataRow) :=
  match result_writer with Some _ => [Flush t frame] | None => [] end.

Definition draw_events (drawer : option (Drawer Frame TrackingUnit DataRow))
    (frame : Frame) (self : Monitor Frame TrackingUnit DataRow)
  : list (Event Frame ROI TrackingUnit DataRow) :=
  match drawer with
  | Some _ => [Draw frame (_last_positions self) (_unit_trackers self)]
  | None => []
  end.

(** The monitor and the calls after a frame whose tracking returned
    [results] and left the units as [units]. *)
Definition after_frame (stop_called : bool) (i : nat) (t : Z) (frame : Frame)
    (results : list (TrackingResult ROI DataRow)) (units : list TrackingUnit)
    (self : Monitor Frame TrackingUnit DataRow) : Monitor Frame TrackingUnit DataRow :=
  set_last_t t
    (update_last_positions results
       (set_unit_trackers units
          ((if stop_called then stop else fun m => m) (set_current i t frame self)))).

Definition frame_events (result_writer : option (ResultWriter Frame ROI DataRow))
    (drawer : option (Drawer Frame TrackingUnit DataRow)) (t : Z) (frame : Frame)
    (results : list (TrackingResult ROI DataRow))
    (after : Monitor Frame TrackingUnit DataRow)
  : list (Event Frame ROI TrackingUnit DataRow) :=
  TrackAll t frame
  :: write_events result_writer t results
  ++ flush_events result_writer t frame
  ++ draw_events drawer frame after.

(** The frame the camera yields after a stop, if it has one. *)
Definition next_pull (i : nat) (camera : list (Z * Frame))
  : list (Event Frame ROI TrackingUnit DataRow) :=
  match camera with
  | [] => []
  | (t, frame) :: _ => [Pull i t frame]
  end.

Definition is_pull_of (i : nat) (e : Event Frame ROI TrackingUnit DataRow) : bool :=
  match e with Pull j _ _ => Nat.eqb i j | _ => false end.

End MonitorObservations.

(** *** A small installation

    A frame tells, for each region, the rows the tracker finds in it; a
    tracking unit remembers the rows it found last. *)
Record ToyUnit : Type := {
  unit_roi : Z;
  unit_stimulator : option unit;
  unit_last : list Z
}.

#[export] Instance toy_ops : UnitOps (gmap Z (list Z)) Z unit unit ToyUnit Z := {
  TrackingUnit_init := fun _ r s =>
    {| unit_roi := r; unit_stimulator := s; unit_last := [] |};
  track := fun _ frame u =>
    let rows := default [] (frame !! unit_roi u) in
    (Ok rows, {| unit_roi := unit_roi u;
                 unit_stimulator := unit_stimulator u;
                 unit_last := match rows with [] => unit_last u | _ => rows end |});
  get_last_positions := fun _ u => unit_last u;
  roi := unit_roi;
  idx := fun r => r
}.

Definition toy_writer : ResultWriter (gmap Z (list Z)) Z Z :=
  {| write_raises := fun _ _ _ => None; flush_raises := fun _ _ => None |}.

Definition toy_drawer : Drawer (gmap Z (list Z)) ToyUnit Z :=
  {| draw_raises := fun _ _ _ => None |}.

(** Two frames; region 1 is seen in both, region 2 in neither. *)
Definition toy_frame_0 : gmap Z (list Z) := {[ 1 := [10] ]}.
Definition toy_frame_1 : gmap Z (list Z) := {[ 1 := [11] ]}.

Definition toy_camera : list (Z * gmap Z (list Z)) :=
  [(0, toy_frame_0); (40, toy_frame_1)].

Definition toy_monitor : Monitor (gmap Z (list Z)) ToyUnit Z :=
  new_monitor toy_camera
    (map (fun r => TrackingUnit_init (UnitOps := toy_ops) tt r None) [1; 2]).

Definition toy_start : RunState (gmap Z (list Z)) Z ToyUnit Z := (toy_monitor, []).

Definition toy_writes_for (r : Z) (e : Event (gmap Z (list Z)) Z ToyUnit Z) : bool :=
  match e with Write _ r' _ => Z.eqb r r' | _ => false end.

(** The units, the monitor and the calls once frame 0 has been
    processed with both sinks, [stop()] having been called meanwhile. *)
Definition toy_units_0 : list ToyUnit :=
  [ {| unit_roi := 1; unit_stimulator := None; unit_last := [10] |};
    {| unit_roi := 2; unit_stimulator := None; unit_last := [] |} ].

Definition toy_monitor_0 : Monitor (gmap Z (list Z)) ToyUnit Z :=
  after_frame (ops := toy_ops) true 0 0 toy_frame_0 [([10], 1, [10]); ([], 2, [])]
    toy_units_0 (set_is_running true toy_monitor).

Definition toy_trace_0 : list (Event (gmap Z (list Z)) Z ToyUnit Z) :=
  [ Pull 0 0 toy_frame_0;
    TrackAll 0 toy_frame_0;
    Write 0 1 [10];
    Flush 0 toy_frame_0;
    Draw toy_frame_0 (<[ 2 := [] ]> {[ 1 := [10] ]}) toy_units_0 ].

(** [stop()] is called while frame 0 is processed. *)
Definition stop_during_0 (i : nat) : bool := Nat.eqb i 0.

Definition never_stop (i : nat) : bool := false.


(** A subclass of the prototype that always decides to act, and two
    objects of it: one whose previous process is still running, one that
    is idle. *)
#[export] Instance AlwaysInteract_methods : Prototype.Interactor string unit := {
  Prototype._run := ret (true, {[ "freq"%string := 440 ]})
}.

Definition busy_interactor : Prototype.BaseInteractor string unit :=
  {| Prototype._tracker := Some history_1;
     Prototype._subprocess := {| Prototype.is_alive := true;
                                 Prototype.started_with := Some ∅ |};
     Prototype._target := Some "beep"%string;
     Prototype.fields := tt |}.

Definition idle_interactor : Prototype.BaseInteractor string unit :=
  {| Prototype._tracker := Some history_1;
     Prototype._subprocess := {| Prototype.is_alive := false;
                                 Prototype.started_with := None |};
     Prototype._target := Some "beep"%string;
     Prototype.fields := tt |}.

(** *** Kinds of calls, and the frames a camera yields *)
Section MonitorEvents.

Context {Frame ROI TrackingUnit DataRow : Type}.

Definition is_pull (e : Event Frame ROI TrackingUnit DataRow) : bool :=
  match e with Pull _ _ _ => true | _ => false end.

Definition is_track_all (e : Event Frame ROI TrackingUnit DataRow) : bool :=
  match e with TrackAll _ _ => true | _ => false end.

Definition is_sink_call (e : Event Frame ROI TrackingUnit DataRow) : bool :=
  match e with Write _ _ _ | Flush _ _ | Draw _ _ _ => true | _ => false end.

(** [enumerate(camera)], counting from [i], as calls to the camera. *)
Fixpoint pull_events (i : nat) (camera : list (Z * Frame))
  : list (Event Frame ROI TrackingUnit DataRow) :=
  match camera with
  | [] => []
  | (t, frame) :: rest => Pull i t frame :: pull_events (S i) rest
  end.

End MonitorEvents.


(** Both regions are seen in this frame. *)
Definition toy_frame_2 : gmap Z (list Z) := <[ 2 := [20] ]> {[ 1 := [12] ]}.

(** A writer that refuses the rows of region 2. *)
Definition picky_writer : ResultWriter (gmap Z (list Z)) Z Z :=
  {| write_raises := fun _ r _ =>
       if Z.eqb r 2 then Some (ExternalError "region 2 refused") else None;
     flush_raises := fun _ _ => None |}.

(** ** ShieldOutput ([ethoscope/hardware/interfaces/shield_output.py])

    The I2C bus and the GPIO port belong to libraries outside the
    repository.  The bus is represented by what the probe of the
    constructor meets (opening, writing or reading may raise, a read
    returns a byte); the calls to both libraries and the warnings logged
    are recorded in order.  Failures of the GPIO library are not
    modelled. *)
Module Shield.

Inductive level : Type := LOW | HIGH.

Inductive HwEvent : Type :=
| SMBusOpen (bus : Z)
| WriteByte (addr byte : Z)
| ReadByte (addr : Z)
| GpioSetmodeBoard
| GpioSetup (pin : Z) (initial : level)
| GpioOutput (pin : Z) (value : level)
| LogWarning (msg : string).

Record SMBus : Type := {
  open_raises : option exn;
  write_byte_raises : Z -> Z -> option exn;
  read_byte : Z -> result Z
}.

Record ShieldOutput : Type := {
  _shield_attached : bool;
  _gpio_pin : option Z
}.

(** The GPIO numbers for the shield pins. *)
Definition shield_pins : list Z := [24; 26; 31; 29; 7].

(** [l[i]] for any integer [i]: negative indices count from the end. *)
Definition py_index {A} (l : list A) (i : Z) : option A :=
  if (0 <=? i) && (i <? Z.of_nat (length l)) then l !! Z.to_nat i
  else if (- Z.of_nat (length l) <=? i) && (i <? 0)
       then l !! Z.to_nat (Z.of_nat (length l) + i)
       else None.

Definition log (e : HwEvent) : M (list HwEvent) unit :=
  modify (fun hw => hw ++ [e]).

Definition call_lib (e : HwEvent) (raises : option exn) : M (list HwEvent) unit :=
  log e;;
  match raises with Some err => raise err | None => ret tt end.

(** The [try] block of the constructor: is the light sensor of the
    shield at address 0x29, with identifier 0x50 in register 0x12? *)
Definition probe (bus : SMBus) : M (list HwEvent) unit :=
  call_lib (SMBusOpen 1) (open_raises bus);;
  call_lib (WriteByte 41 (Z.lor 160 18)) (write_byte_raises bus 41 (Z.lor 160 18));;
  log (ReadByte 41);;
  let* id := (fun hw => (read_byte bus 41, hw)) in
  if negb (id =? 80) then raise (ExternalError "") else ret tt.

Definition no_shield_msg : string :=
  "Unable to determine that the Rymapt shield is connected".

(** [ShieldOutput.__init__]; the [except:] clause catches whatever the
    probe raises. *)
Definition ShieldOutput_init (bus : SMBus) (shield_pin gpio_pin : option Z)
    (check_shield : bool) : M (list HwEvent) ShieldOutput :=
  if bool_decide (shield_pin = None) && bool_decide (gpio_pin = None)
  then raise (ExternalError "Either shield_pin or gpio_pin must be specified")
  else
    fun hw =>
      let after_check :=
        if check_shield then
          match probe bus hw with
          | (Ok _, hw) => (true, hw)
          | (Raise _, hw) => (false, hw ++ [LogWarning no_shield_msg])
          end
        else (true, hw) in
      if negb (fst after_check)
      then (Ok {| _shield_attached := false; _gpio_pin := None |}, snd after_check)
      else
        (let* pin :=
           match gpio_pin with
           | None =>
               match shield_pin with
               | Some i => lift_option IndexError (py_index shield_pins i)
               | None => raise (ExternalError "list indices must be integers")
               end
           | Some pin => ret pin
           end in
         log GpioSetmodeBoard;;
         log (GpioSetup pin LOW);;
         ret {| _shield_attached := true; _gpio_pin := Some pin |})
          (snd after_check).

Definition output (value : level) (warning : string) (self : ShieldOutput)
  : M (list HwEvent) unit :=
  if _shield_attached self then
    let* pin := lift_option AttributeError (_gpio_pin self) in
    log (GpioOutput pin value)
  else log (LogWarning warning).

Definition on : ShieldOutput -> M (list HwEvent) unit :=
  output HIGH "Rymapt shield is not attached so cannot switch on output".

Definition off : ShieldOutput -> M (list HwEvent) unit :=
  output LOW "Rymapt shield is not attached so cannot switch off output".

(** A sequence of calls of [on] ([true]) and [off] ([false]). *)
Fixpoint switch (self : ShieldOutput) (calls : list bool) : M (list HwEvent) unit :=
  match calls with
  | [] => ret tt
  | c :: rest => (if c then on self else off self);; switch self rest
  end.

Definition is_gpio (e : HwEvent) : bool :=
  match e with
  | GpioSetmodeBoard | GpioSetup _ _ | GpioOutput _ _ => true
  | _ => false
  end.

(** The level the port was last told to give to [pin]. *)
Definition pin_level (pin : Z) (hw : list HwEvent) : option level :=
  fold_left (fun lv e =>
               match e with
               | GpioSetup p v | GpioOutput p v => if p =? pin then Some v else lv
               | _ => lv
               end) hw None.

(** Buses for the examples: one with the shield, one with nothing at
    the address, one that answers with another identifier. *)
Definition good_bus : SMBus :=
  {| open_raises := None; write_byte_raises := fun _ _ => None;
     read_byte := fun _ => Ok 80 |}.

Definition empty_bus : SMBus :=
  {| open_raises := None;
     write_byte_raises := fun _ _ => Some (ExternalError "Remote I/O error");
     read_byte := fun _ => Raise (ExternalError "Remote I/O error") |}.

Definition other_bus : SMBus :=
  {| open_raises := None; write_byte_raises := fun _ _ => None;
     read_byte := fun _ => Ok 17 |}.

End Shield.

(** * Properties *)

(** ** The monad *)

Lemma bind_ok {S A B} (c : M S A) (k : A -> M S B) s a s' :
  c s = (Ok a, s') -> bind c k s = k a s'.
Proof. intros H. unfold bind. rewrite H. reflexivity. Qed.

Lemma bind_raise {S A B} (c : M S A) (k : A -> M S B) s e s' :
  c s = (Raise e, s') -> bind c k s = (Raise e, s').
Proof. intros H. unfold bind. rewrite H. reflexivity. Qed.

(** ** Negative indices *)



Lemma py_index_neg_last {A} (l : list A) : py_index_neg l 1 = last l.
Proof.
  unfold py_index_neg. rewrite last_lookup. case_decide.
  - f_equal. lia.
  - destruct l; simpl in *; [reflexivity | lia].
Qed.

(** ** The exact tests are the float expressions of the source *)











(** ** SleepDepInteractor *)






(** One evaluation, seen from the streak timer: the timer is kept, or
    started at the last time stamp, or unset; "act" is returned only
    when a timer older than the threshold is unset. *)
Lemma SleepDep_step (self : SleepDepInteractor) (tr : Tracker) r self' :
  _run (bind_tracker tr self) = (r, self') ->
  _inactivity_time_threshold (fields self') = _inactivity_time_threshold (fields self) /\
  _distance_threshold (fields self') = _distance_threshold (fields self) /\
  _channel (fields self') = _channel (fields self) /\
  ((acts r = false /\ _t0 (fields self') = _t0 (fields self))
   \/ (acts r = false /\ _t0 (fields self) = None /\
       exists now, py_index_neg (times tr) 1 = Some now /\
                   _t0 (fields self') = Some now)
   \/ (r = Ok (true, channel_kw self) /\ _t0 (fields self') = None /\
       exists t0 now, _t0 (fields self) = Some t0 /\
                      py_index_neg (times tr) 1 = Some now /\
                      now - t0 > _inactivity_time_threshold (fields self))
   \/ (acts r = false /\ _t0 (fields self') = None)).
Proof.
  simpl. unfold SleepDep_run, tracker_of, bind, get. simpl.
  case_decide.
  { intros [= <- <-]. simpl. auto 10. }
  destruct (py_index_neg (positions tr) 1) as [tail_m|]; simpl;
    [|intros [= <- <-]; simpl; auto 10].
  destruct (py_index_neg (positions tr) 2) as [tail_mm|]; simpl;
    [|intros [= <- <-]; simpl; auto 10].
  destruct (np_abs_lt _ _); simpl; [|intros [= <- <-]; simpl; auto 10].
  destruct (py_index_neg (times tr) 1) as [now|] eqn:Hnow; simpl;
    [|intros [= <- <-]; simpl; auto 10].
  destruct (_t0 (fields self)) as [t0|] eqn:Ht0; simpl.
  - destruct (now - t0 >? _) eqn:Hold; simpl; intros [= <- <-]; simpl.
    + apply Z.gtb_gt in Hold. do 3 (split; [reflexivity|]).
      right. right. left. eauto 10.
    + auto 10.
  - intros [= <- <-]. simpl. do 3 (split; [reflexivity|]).
    right. left. eauto.
Qed.

Section EvaluationProps.

Variable history : nat -> Tracker.
Variable start : SleepDepInteractor.

Let before := state_before history start.
Let dec := decision history start.

Lemma evaluate_step n :
  evaluate history n (before n) = (dec n, before (S n)).
Proof. subst before dec. unfold decision. simpl. apply surjective_pairing. Qed.

Lemma config_kept n :
  _inactivity_time_threshold (fields (before n))
  = _inactivity_time_threshold (fields start)
  /\ _distance_threshold (fields (before n)) = _distance_threshold (fields start)
  /\ _channel (fields (before n)) = _channel (fields start).
Proof.
  induction n as [|n (IHt & IHd & IHc)]; [repeat split; reflexivity|].
  destruct (SleepDep_step _ _ _ _ (evaluate_step n)) as (Ht & Hd & Hc & _).
  repeat split; congruence.
Qed.

(** A timer that is set was started by an earlier evaluation, at that
    evaluation's time stamp, and no evaluation since returned "act". *)
Lemma t0_origin n v :
  _t0 (fields start) = None ->
  _t0 (fields (before n)) = Some v ->
  exists k, (k < n)%nat /\
    _t0 (fields (before k)) = None /\
    _t0 (fields (before (S k))) = Some v /\
    py_index_neg (times (history k)) 1 = Some v /\
    forall l, (k < l < n)%nat ->
      acts (dec l) = false /\ _t0 (fields (before (S l))) = Some v.
Proof.
  intros Hstart. induction n as [|n IH]; intros Hv.
  { simpl in Hv. subst before. simpl in Hv. congruence. }
  destruct (SleepDep_step _ _ _ _ (evaluate_step n)) as (_ & _ & _ & Hcases).
  destruct Hcases as [[Hno Hkeep] | [(Hno & Hnone & now & Hnow & Hset)
                     | [(_ & Hunset & _) | [_ Hunset]]]]; try congruence.
  - destruct IH as (k & Hk & Hk0 & Hk1 & Hkt & Hbetween); [congruence|].
    exists k. repeat split; try assumption; try lia.
    + destruct (decide (l = n)) as [->|Hne]; [exact Hno|].
      apply Hbetween. lia.
    + destruct (decide (l = n)) as [->|Hne]; [exact Hv|].
      apply Hbetween. lia.
  - exists n. rewrite Hset in Hv. injection Hv as <-.
    repeat split; try assumption; try lia.
Qed.

End EvaluationProps.

Lemma acts_true r : acts r = true -> exists kw, r = Ok (true, kw).
Proof. destruct r as [[[] kw]|]; simpl; try discriminate. eauto. Qed.




(** ** IsMovingInteractor *)











(** ** Calling an interactor: binding and actuation *)

(** C9.  Calling an interactor whose tracker was never bound raises the
    [ValueError] at once and leaves the interactor as it was, for the
    synchronous base class and for the prototype one, whatever the
    subclass; once [bind_tracker] has been called the check passes and
    the call is the body that follows it. *)
Theorem unbound_call_raises :
  (forall F (methods : InteractorSync F) (self : BaseInteractorSync F),
     _tracker self = None ->
     __call__ self = (Raise (ValueError no_tracker_msg), self))
  /\ (forall T F (methods : Prototype.Interactor T F)
             (self : Prototype.BaseInteractor T F),
        Prototype._tracker self = None ->
        Prototype.__call__ self = (Raise (ValueError no_tracker_msg), self))
  /\ (forall F (methods : InteractorSync F) (self : BaseInteractorSync F) tracker,
        __call__ (bind_tracker tracker self) = call_body (bind_tracker tracker self))
  /\ (forall T F (methods : Prototype.Interactor T F)
             (self : Prototype.BaseInteractor T F) tracker,
        Prototype.__call__ (Prototype.bind_tracker tracker self)
        = Prototype.call_body (Prototype.bind_tracker tracker self)).
Proof.
  repeat split.
  - intros F methods self Hnone. unfold __call__. rewrite Hnone. reflexivity.
  - intros T F methods self Hnone. unfold Prototype.__call__. rewrite Hnone.
    reflexivity.
Qed.

Lemma unbound_call_raises_witness :
  __call__ fresh_sleep_dep = (Raise (ValueError no_tracker_msg), fresh_sleep_dep)
  /\ fst (__call__ (bind_tracker history_1 fresh_sleep_dep))
     = Ok (false, {[ "channel"%string := 3 ]}).
Proof.
  destruct unbound_call_raises as (Hsync & _ & Hbound & _).
  split.
  - apply Hsync. reflexivity.
  - rewrite Hbound. reflexivity.
Defined.

(** What [__call__] returns is decided by [_run] and, on "act", by
    [_interact]. *)
Lemma call_act {F} `{InteractorSync F} (self self1 : BaseInteractorSync F) tr kw :
  _tracker self = Some tr ->
  _run self = (Ok (true, kw), self1) ->
  __call__ self =
    match _interact kw self1 with
    | (Ok _, self2) => (Ok (true, kw), self2)
    | (Raise e, self2) => (Raise e, self2)
    end.
Proof.
  intros Htr Hrun. unfold __call__, call_body, bind. rewrite Htr, Hrun.
  destruct (_interact kw self1) as [[[]|e] self2]; reflexivity.
Qed.


(** A disconnected sleep depriver: the evaluation decides "act", the
    dispatch raises, and so does the call. *)
Lemma SleepDep_call_raises_on_hardware_error :
  __call__ (bind_tracker history_2
              (set_t0 (Some 0) (SleepDepInteractor_init 3 broken_interface)))
  = (Raise (ExternalError "serial port closed"),
     bind_tracker history_2 (SleepDepInteractor_init 3 broken_interface)).
Proof. vm_compute. reflexivity. Qed.

(** C6, amended.  When a bound synchronous interactor decides "act", the
    call dispatches the actuation and an error it raises propagates to
    the caller: the call raises that error, in the state [_run] left
    (for the sleep depriver, with the timer already unset).  When the
    dispatch goes through, the call returns "act" with the parameters,
    and the sleep-depriver interface has received them. *)
Theorem actuation_error_propagates :
  (forall F (methods : InteractorSync F) (self self1 self2 : BaseInteractorSync F)
          tr kw e,
     _tracker self = Some tr ->
     _run self = (Ok (true, kw), self1) ->
     _interact kw self1 = (Raise e, self2) ->
     __call__ self = (Raise e, self2))
  /\ (forall (self self1 : SleepDepInteractor) tr kw,
        _tracker self = Some tr ->
        _run self = (Ok (true, kw), self1) ->
        __call__ self =
          match deprive_raises (_sleep_dep_interface (fields self1)) kw with
          | Some e => (Raise e, self1)
          | None =>
              (Ok (true, kw),
               set_interface
                 {| deprive_raises := deprive_raises (_sleep_dep_interface (fields self1));
                    deprived := deprived (_sleep_dep_interface (fields self1)) ++ [kw] |}
                 self1)
          end).
Proof.
  split.
  - intros F methods self self1 self2 tr kw e Htr Hrun Hint.
    rewrite (call_act self self1 tr kw Htr Hrun), Hint. reflexivity.
  - intros self self1 tr kw Htr Hrun.
    rewrite (call_act self self1 tr kw Htr Hrun). simpl.
    unfold SleepDep_interact, deprive.
    destruct (deprive_raises _ kw) as [e|]; [|reflexivity].
    f_equal. destruct self1 as [tracker1 []]. reflexivity.
Qed.

Lemma actuation_error_propagates_witness :
  fst (__call__ (bind_tracker history_2
                   (set_t0 (Some 0) (SleepDepInteractor_init 3 broken_interface))))
  = Raise (ExternalError "serial port closed").
Proof.
  destruct actuation_error_propagates as [_ Hsd].
  rewrite (Hsd (bind_tracker history_2
                  (set_t0 (Some 0) (SleepDepInteractor_init 3 broken_interface)))
               (bind_tracker history_2 (SleepDepInteractor_init 3 broken_interface))
               history_2 {[ "channel"%string := 3 ]} eq_refl);
    reflexivity.
Defined.

(** ** Monitor *)

Section MonitorProps.

Context {Frame ROI Stimulator TrackerClass TrackingUnit DataRow : Type}.
Context {ops : UnitOps Frame ROI Stimulator TrackerClass TrackingUnit DataRow}.

Local Abbreviation Mon := (Monitor Frame TrackingUnit DataRow).
Local Abbreviation State := (RunState Frame ROI TrackingUnit DataRow).
Local Abbreviation Results := (list (TrackingResult ROI DataRow)).

Implicit Types (st : State) (results : Results).

Lemma has_rows_false (r : TrackingResult ROI DataRow) :
  has_rows r = false <-> length (fst (fst r)) = 0%nat.
Proof.
  unfold has_rows. rewrite negb_false_iff. apply Nat.eqb_eq.
Qed.

Lemma write_events_skip (result_writer : option (ResultWriter Frame ROI DataRow)) t
    (r : TrackingResult ROI DataRow) results :
  has_rows r = false ->
  write_events (TrackingUnit := TrackingUnit) result_writer t (r :: results)
  = write_events result_writer t results.
Proof.
  intros Hr. unfold write_events. destruct result_writer; [|reflexivity].
  simpl. rewrite Hr. reflexivity.
Qed.

Lemma write_events_cons (w : ResultWriter Frame ROI DataRow) t
    (r : TrackingResult ROI DataRow) results :
  has_rows r = true ->
  write_events (TrackingUnit := TrackingUnit) (Some w) t (r :: results)
  = Write t (result_roi r) (fst (fst r)) :: write_events (Some w) t results.
Proof. intros Hr. unfold write_events. simpl. rewrite Hr. reflexivity. Qed.

Lemma update_last_positions_cons (r : TrackingResult ROI DataRow) results (m : Mon) :
  update_last_positions (r :: results) m
  = update_last_positions results
      (set_last_position (idx (result_roi r)) (entry_of r) m).
Proof. reflexivity. Qed.

(** The aggregation loop, when no write raises: the map receives one
    entry per result, in order, and the writer one call per result
    that has rows. *)
Lemma aggregate_ok result_writer t results st st' :
  aggregate result_writer t results st = (Ok tt, st') ->
  fst st' = update_last_positions results (fst st)
  /\ snd st' = snd st ++ write_events result_writer t results.
Proof.
  revert st. induction results as [|[[data_rows r] abs_pos] rest IH]; intros st.
  - simpl. intros [= <-]. split; [reflexivity|].
    unfold write_events. destruct result_writer; simpl; rewrite app_nil_r; reflexivity.
  - rewrite update_last_positions_cons. cbn [aggregate].
    case_decide as Hlen.
    + assert (Hr : has_rows (data_rows, r, abs_pos) = false)
        by (apply has_rows_false; exact Hlen).
      rewrite (write_events_skip _ _ _ _ Hr). unfold entry_of. rewrite Hr.
      unfold bind, on_monitor, modify. intros Hrest.
      destruct (IH _ Hrest) as [Hm Htr]. split; assumption.
    + assert (Hr : has_rows (data_rows, r, abs_pos) = true).
      { destruct (has_rows _) eqn:E; [reflexivity|].
        apply has_rows_false in E. contradiction. }
      unfold entry_of. rewrite Hr.
      unfold bind, on_monitor, modify.
      destruct result_writer as [w|].
      * rewrite (write_events_cons _ _ _ _ Hr).
        unfold call_out, bind, modify.
        destruct (write_raises w t r data_rows); [discriminate|].
        intros Hrest. destruct (IH _ Hrest) as [Hm Htr]. simpl in Hm, Htr.
        split; [exact Hm|]. rewrite Htr, <- app_assoc. reflexivity.
      * intros Hrest. destruct (IH _ Hrest) as [Hm Htr]. simpl in Hm, Htr.
        split; assumption.
Qed.

Lemma update_last_positions_fields results (m : Mon) :
  _force_stop (update_last_positions results m) = _force_stop m
  /\ _unit_trackers (update_last_positions results m) = _unit_trackers m.
Proof.
  revert m. induction results as [|r rest IH]; intros m; [split; reflexivity|].
  rewrite update_last_positions_cons.
  destruct (IH (set_last_position (idx (result_roi r)) (entry_of r) m)) as [H1 H2].
  rewrite H1, H2. split; reflexivity.
Qed.

(** One iteration that completes: the tracking returned one result per
    unit, and the monitor and the calls are those of [after_frame] and
    [frame_events]. *)
Lemma process_frame_ok result_writer drawer stop_called i ts img st st' :
  process_frame result_writer drawer stop_called i ts img st = (Ok tt, st') ->
  exists results units,
    pool_map (TrackerFrame_run {| t := ts; frame := img |}) (_unit_trackers (fst st))
    = (Ok results, units)
    /\ fst st' = after_frame stop_called i ts img results units (fst st)
    /\ snd st' = snd st ++ frame_events result_writer drawer ts img results (fst st').
Proof.
  unfold process_frame. intros H.
  assert (Hunits : _unit_trackers
             ((if stop_called then stop else fun m : Mon => m)
                (set_current i ts img (fst st)))
           = _unit_trackers (fst st)) by (destruct stop_called; reflexivity).
  unfold after_frame.
  set (m1 := (if stop_called then stop else fun m : Mon => m)
               (set_current i ts img (fst st))) in *.
  assert (H' :
    (let* trackingResults := track_units {| t := ts; frame := img |} in
     aggregate result_writer ts trackingResults;;
     match result_writer with
     | Some w => call_out (Flush ts img) (flush_raises w ts img)
     | None => ret tt
     end;;
     match drawer with
     | Some d =>
         let* st := get in
         call_out (Draw img (_last_positions (fst st)) (_unit_trackers (fst st)))
           (draw_raises d img (_last_positions (fst st)) (_unit_trackers (fst st)))
     | None => ret tt
     end;;
     on_monitor (set_last_t ts)) (m1, snd st) = (Ok tt, st')).
  { rewrite <- H. subst m1. destruct stop_called; reflexivity. }
  clear H. revert H'.
  unfold bind at 1. unfold track_units. cbn [fst snd t frame].
  rewrite Hunits.
  destruct (pool_map _ _) as [[results|e] units]; [|discriminate].
  unfold bind at 1.
  destruct (aggregate result_writer ts results _) as [[[]|e] st1] eqn:Hagg;
    [|discriminate].
  apply aggregate_ok in Hagg. destruct Hagg as [Hm Htr]. cbn [fst snd] in Hm, Htr.
  intros Hrest. exists results, units. split; [reflexivity|].
  unfold frame_events.
  destruct st1 as [mon1 tr1]. cbn [fst snd] in *. subst mon1 tr1.
  unfold bind, call_out, bind, modify, on_monitor, modify, get, ret in Hrest.
  cbn [fst snd] in Hrest. unfold flush_events, draw_events.
  destruct result_writer as [w|], drawer as [d|]; cbn [fst snd] in Hrest.
  - destruct (flush_raises w ts img); [discriminate|]. cbn [fst snd] in Hrest.
    destruct (draw_raises d img _ _); [discriminate|].
    injection Hrest as <-. cbn [fst snd].
    split; [reflexivity|]. rewrite <- !app_assoc. reflexivity.
  - destruct (flush_raises w ts img); [discriminate|].
    injection Hrest as <-. cbn [fst snd].
    split; [reflexivity|]. rewrite <- !app_assoc, app_nil_r. reflexivity.
  - destruct (draw_raises d img _ _); [discriminate|].
    injection Hrest as <-. cbn [fst snd].
    split; [reflexivity|]. rewrite <- !app_assoc. reflexivity.
  - injection Hrest as <-. cbn [fst snd].
    split; [reflexivity|]. rewrite <- !app_assoc, app_nil_r. reflexivity.
Qed.

(** The pool map, when it returns: unit by unit, the rows and the
    tracked unit come from [track], and the result carries the
    region and the absolute last position of the tracked unit. *)
Lemma pool_map_ok (tf : TrackerFrame Frame) units results units' :
  pool_map (TrackerFrame_run tf) units = (Ok results, units') ->
  map result_roi results = map roi units'
  /\ forall k u, units !! k = Some u ->
       exists data_rows u',
         track (t tf) (frame tf) u = (Ok data_rows, u')
         /\ units' !! k = Some u'
         /\ results !! k
            = Some (data_rows, roi u', get_last_positions true u').
Proof.
  revert results units'. induction units as [|u0 us IH]; intros results units'.
  - simpl. intros [= <- <-]. split; [reflexivity|]. intros k u Hk. discriminate Hk.
  - simpl. unfold TrackerFrame_run at 1.
    destruct (track (t tf) (frame tf) u0) as [[rows0|e] u0'] eqn:Htrack;
      [|discriminate].
    destruct (pool_map (TrackerFrame_run tf) us) as [[rs|e] us'] eqn:Hrest;
      [|discriminate].
    intros [= <- <-]. destruct (IH rs us' eq_refl) as [Hrois Hunits].
    split.
    + simpl. unfold result_roi at 1. simpl. rewrite Hrois. reflexivity.
    + intros [|k] u Hk.
      * simpl in Hk. injection Hk as <-. exists rows0, u0'. auto.
      * simpl in Hk. destruct (Hunits k u Hk) as (rows & u' & H1 & H2 & H3).
        exists rows, u'. auto.
Qed.

Lemma update_last_positions_other results (m : Mon) (key : Z) :
  key ∉ map (fun r => idx (result_roi r)) results ->
  _last_positions (update_last_positions results m) !! key
  = _last_positions m !! key.
Proof.
  revert m. induction results as [|r rest IH]; intros m Hnot; [reflexivity|].
  rewrite update_last_positions_cons. simpl in Hnot.
  apply not_elem_of_cons in Hnot as [Hne Hrest].
  rewrite IH by exact Hrest. simpl.
  apply lookup_insert_ne. congruence.
Qed.

Lemma update_last_positions_lookup results (m : Mon) k r :
  NoDup (map (fun r => idx (result_roi r)) results) ->
  results !! k = Some r ->
  _last_positions (update_last_positions results m) !! idx (result_roi r)
  = Some (entry_of r).
Proof.
  revert m k. induction results as [|r0 rest IH]; intros m k Hnd Hk;
    [discriminate Hk|].
  rewrite update_last_positions_cons. simpl in Hnd.
  apply NoDup_cons in Hnd as [Hfresh Hnd].
  destruct k as [|k]; simpl in Hk.
  - injection Hk as ->.
    rewrite update_last_positions_other by exact Hfresh.
    simpl. apply lookup_insert_eq.
  - apply (IH _ k); assumption.
Qed.

(** C8.  After an iteration that completes, and for regions with
    distinct identifiers, the map of last positions holds an entry for
    the region of every tracking unit: the empty list when the unit
    returned no rows for this frame, whatever the map held before, and
    the absolute last position of the unit when it returned rows. *)
Theorem last_positions_after_frame result_writer drawer stop_called i ts img st st' :
  process_frame result_writer drawer stop_called i ts img st = (Ok tt, st') ->
  NoDup (map (fun u => idx (roi u)) (_unit_trackers (fst st'))) ->
  forall k u, _unit_trackers (fst st) !! k = Some u ->
    exists data_rows u',
      track ts img u = (Ok data_rows, u')
      /\ _unit_trackers (fst st') !! k = Some u'
      /\ (length data_rows = 0%nat ->
          _last_positions (fst st') !! idx (roi u') = Some [])
      /\ (length data_rows <> 0%nat ->
          _last_positions (fst st') !! idx (roi u')
          = Some (get_last_positions true u')).
Proof.
  intros Hframe Hnd k u Hk.
  destruct (process_frame_ok _ _ _ _ _ _ _ _ Hframe)
    as (results & units & Hpool & Hmon & _).
  destruct (pool_map_ok _ _ _ _ Hpool) as [Hrois Hunits].
  destruct (Hunits k u Hk) as (data_rows & u' & Htrack & Hu' & Hres).
  simpl in Htrack. exists data_rows, u'.
  assert (Hafter : _unit_trackers (fst st') = units).
  { rewrite Hmon. unfold after_frame. simpl.
    destruct (update_last_positions_fields results
                (set_unit_trackers units
                   ((if stop_called then stop else fun m : Mon => m)
                      (set_current i ts img (fst st))))) as [_ ->].
    reflexivity. }
  rewrite Hafter in Hnd |- *.
  assert (Hnd' : NoDup (map (fun r => idx (result_roi r)) results)).
  { rewrite <- (map_map result_roi idx), Hrois, map_map. exact Hnd. }
  assert (Hentry : _last_positions (fst st') !! idx (roi u')
                   = Some (entry_of (data_rows, roi u', get_last_positions true u'))).
  { rewrite Hmon. unfold after_frame. simpl.
    apply (update_last_positions_lookup results _ k _ Hnd' Hres). }
  do 2 (split; [assumption|]). rewrite Hentry. unfold entry_of, has_rows. simpl.
  split; intros Hlen.
  - rewrite Hlen. reflexivity.
  - apply Nat.eqb_neq in Hlen. rewrite Hlen. reflexivity.
Qed.

(** C7, amended.  In an iteration that completes, the calls to the
    sinks are, in this order: with a result writer, one [write] for
    each tracking unit that returned rows for the frame, in the order
    of the units, and none for a unit that returned no rows, then one
    [flush]; with a drawer, one [draw], after the flush, given the
    frame, the updated map of last positions and the tracking units. *)
Theorem sink_calls_per_frame result_writer drawer stop_called i ts img st st' :
  process_frame result_writer drawer stop_called i ts img st = (Ok tt, st') ->
  exists results units,
    pool_map (TrackerFrame_run {| t := ts; frame := img |}) (_unit_trackers (fst st))
    = (Ok results, units)
    /\ snd st' =
       snd st
       ++ [TrackAll ts img]
       ++ match result_writer with
          | Some _ =>
              map (fun r => Write ts (result_roi r) (fst (fst r)))
                  (List.filter has_rows results)
              ++ [Flush ts img]
          | None => []
          end
       ++ match drawer with
          | Some _ => [Draw img (_last_positions (fst st')) (_unit_trackers (fst st'))]
          | None => []
          end.
Proof.
  intros Hframe.
  destruct (process_frame_ok _ _ _ _ _ _ _ _ Hframe)
    as (results & units & Hpool & _ & Htrace).
  exists results, units. split; [exact Hpool|].
  rewrite Htrace. unfold frame_events, write_events, flush_events, draw_events.
  destruct result_writer, drawer; simpl; rewrite <- ?app_assoc; reflexivity.
Qed.

(** *** The loop and the stop flag *)

Lemma after_frame_force_stop stop_called i ts img results units (m : Mon) :
  _force_stop (after_frame stop_called i ts img results units m)
  = stop_called || _force_stop m.
Proof.
  unfold after_frame. simpl.
  destruct (update_last_positions_fields results
              (set_unit_trackers units
                 ((if stop_called then stop else fun m : Mon => m)
                    (set_current i ts img m)))) as [-> _].
  destruct stop_called; reflexivity.
Qed.

Lemma run_loop_cons result_writer drawer stops i ts img camera st :
  _force_stop (fst st) = false ->
  run_loop result_writer drawer stops i ((ts, img) :: camera) st
  = match process_frame result_writer drawer (stops i) i ts img
            (fst st, snd st ++ [Pull i ts img]) with
    | (Ok _, st') => run_loop result_writer drawer stops (S i) camera st'
    | (Raise e, st') => (Raise e, st')
    end.
Proof.
  intros Hgo. cbn [run_loop]. unfold bind at 1 2, modify, get. cbn [fst snd].
  rewrite Hgo. unfold bind. reflexivity.
Qed.

Lemma run_loop_stopped result_writer drawer stops i camera st :
  _force_stop (fst st) = true ->
  run_loop result_writer drawer stops i camera st
  = (Ok tt, (fst st, snd st ++ next_pull i camera)).
Proof.
  intros Hstop. destruct camera as [|[ts img] rest].
  - simpl. rewrite app_nil_r. destruct st; reflexivity.
  - cbn [run_loop]. unfold bind, modify, get. cbn [fst snd].
    rewrite Hstop. reflexivity.
Qed.

(** Frames during which nobody calls [stop()] are processed one after
    the other; the loop goes on with the frames that follow. *)
Lemma run_loop_app result_writer drawer stops pre : forall i camera st,
  _force_stop (fst st) = false ->
  (forall l, (i <= l < i + length pre)%nat -> stops l = false) ->
  run_loop result_writer drawer stops i (pre ++ camera) st
  = match run_loop result_writer drawer stops i pre st with
    | (Ok _, st1) => run_loop result_writer drawer stops (i + length pre) camera st1
    | (Raise e, st1) => (Raise e, st1)
    end
  /\ (forall st1, run_loop result_writer drawer stops i pre st = (Ok tt, st1) ->
        _force_stop (fst st1) = false).
Proof.
  induction pre as [|[ts img] pre IH]; intros i camera st Hgo Hquiet.
  - simpl. rewrite Nat.add_0_r. split; [reflexivity|].
    intros st1 [= <-]. exact Hgo.
  - rewrite <- app_comm_cons. rewrite !run_loop_cons by exact Hgo.
    rewrite (Hquiet i) by (simpl; lia).
    destruct (process_frame result_writer drawer false i ts img _)
      as [[[]|e] st'] eqn:Hframe; [|split; [reflexivity | discriminate]].
    destruct (process_frame_ok _ _ _ _ _ _ _ _ Hframe)
      as (results & units & _ & Hmon & _).
    assert (Hgo' : _force_stop (fst st') = false).
    { rewrite Hmon, after_frame_force_stop. simpl. exact Hgo. }
    destruct (IH (S i) camera st' Hgo') as [Heq Hkeep].
    { intros l Hl. apply Hquiet. simpl. lia. }
    rewrite Heq. simpl length. rewrite Nat.add_succ_r. split; [reflexivity|].
    exact Hkeep.
Qed.

(** C4, amended.  [stop()] is called while frame [k] is processed, and
    not before.  If the frames before [k] and frame [k] itself are
    processed without an exception, the run processes frame [k] to
    the end (its results aggregated, the writer flushed and the drawer
    called), then takes frame [k + 1] from the camera if there is one,
    tests the flag and returns without processing it: the flag is read
    once per iteration, after the frame has been taken. *)
Theorem stop_after_current_frame result_writer drawer stops
    pre ts img rest st st1 st2 :
  _camera (fst st) = pre ++ (ts, img) :: rest ->
  _force_stop (fst st) = false ->
  (forall l, (l < length pre)%nat -> stops l = false) ->
  stops (length pre) = true ->
  run_loop result_writer drawer stops 0 pre (set_is_running true (fst st), snd st)
  = (Ok tt, st1) ->
  process_frame result_writer drawer true (length pre) ts img
    (fst st1, snd st1 ++ [Pull (length pre) ts img]) = (Ok tt, st2) ->
  run result_writer drawer stops st
  = (Ok tt, (set_is_running false (fst st2),
             snd st2 ++ next_pull (S (length pre)) rest))
  /\ _force_stop (fst st2) = true
  /\ exists results,
       snd st2 = snd st1 ++ [Pull (length pre) ts img]
                 ++ frame_events result_writer drawer ts img results (fst st2).
Proof.
  intros Hcam Hgo Hquiet Hstop Hpre Hframe.
  destruct (process_frame_ok _ _ _ _ _ _ _ _ Hframe)
    as (results & units & _ & Hmon & Htrace).
  assert (Hstopped : _force_stop (fst st2) = true).
  { rewrite Hmon, after_frame_force_stop. reflexivity. }
  split; [|split; [exact Hstopped|]].
  - unfold run. cbn [fst snd]. simpl _camera. rewrite Hcam.
    destruct (run_loop_app result_writer drawer stops pre 0 ((ts, img) :: rest)
                (set_is_running true (fst st), snd st)) as [Heq Hkeep].
    { simpl. exact Hgo. }
    { intros l Hl. apply Hquiet. lia. }
    rewrite Heq, Hpre. simpl Nat.add.
    rewrite run_loop_cons by (apply Hkeep; exact Hpre).
    rewrite Hstop, Hframe.
    rewrite run_loop_stopped by exact Hstopped. reflexivity.
  - exists results. cbn [fst snd] in Htrace. rewrite Htrace, <- app_assoc.
    reflexivity.
Qed.

(** C5, amended.  A list of regions without interactors is accepted
    whatever its length, the empty list included, and gives one
    tracking unit per region; a list of interactors of another length
    than the list of regions raises [ValueError]; regions left out
    ([None]) raise [NotImplementedError]. *)
Theorem Monitor_init_spec (camera : list (Z * Frame)) (tracker_class : TrackerClass) :
  (forall rois,
     Monitor_init camera tracker_class (Some rois) None
     = Ok (new_monitor camera
             (map (fun r => TrackingUnit_init tracker_class r None) rois))
     /\ length (map (fun r => TrackingUnit_init tracker_class r None) rois)
        = length rois)
  /\ (forall rois (stimulators : list Stimulator),
        length stimulators <> length rois ->
        Monitor_init camera tracker_class (Some rois) (Some stimulators)
        = Raise (ValueError "You should have one interactor per ROI"))
  /\ (forall stimulators,
        Monitor_init camera tracker_class None stimulators
        = Raise (NotImplementedError "rois must exist (cannot be None)")).
Proof.
  repeat split.
  - apply length_map.
  - intros rois stimulators Hne. unfold Monitor_init.
    case_decide; [contradiction | reflexivity].
Qed.

End MonitorProps.

(** ** The small installation *)

Lemma toy_frame_0_ok :
  process_frame (ops := toy_ops) (Some toy_writer) (Some toy_drawer) true 0 0 toy_frame_0
    (set_is_running true toy_monitor, [Pull 0 0 toy_frame_0])
  = (Ok tt, (toy_monitor_0, toy_trace_0)).
Proof. vm_compute. reflexivity. Qed.

(** One run with both sinks, [stop()] being called during frame 0:
    frame 0 is tracked, written, flushed and drawn, and frame 1 is taken
    from the camera before the run ends. *)
Lemma toy_run_stopped :
  run (ops := toy_ops) (Some toy_writer) (Some toy_drawer) stop_during_0 toy_start
  = (Ok tt, (set_is_running false toy_monitor_0,
             toy_trace_0 ++ [Pull 1 40 toy_frame_1])).
Proof. vm_compute. reflexivity. Qed.

(** The run takes frame 1 from the camera although [stop()] was called
    during frame 0. *)
Lemma stop_pulls_next_frame :
  List.filter (is_pull_of 1)
    (snd (snd (run (ops := toy_ops) (Some toy_writer) (Some toy_drawer)
                 stop_during_0 toy_start)))
  = [Pull 1 40 toy_frame_1].
Proof. rewrite toy_run_stopped. reflexivity. Qed.

(** Region 2 is seen in neither of the two frames of a complete run: the
    writer is never called for it, while it is called once per frame for
    region 1. *)
Lemma no_write_without_rows :
  let trace := snd (snd (run (ops := toy_ops) (Some toy_writer) (Some toy_drawer)
                           never_stop toy_start)) in
  List.filter (toy_writes_for 2) trace = []
  /\ List.filter (toy_writes_for 1) trace = [Write 0 1 [10]; Write 40 1 [11]].
Proof. vm_compute. split; reflexivity. Qed.

(** An empty list of regions is accepted. *)
Lemma Monitor_init_accepts_no_rois :
  Monitor_init (ops := toy_ops) toy_camera tt (Some []) None
  = Ok (new_monitor toy_camera []).
Proof. reflexivity. Qed.

Lemma stop_after_current_frame_witness :
  run (ops := toy_ops) (Some toy_writer) (Some toy_drawer) stop_during_0 toy_start
  = (Ok tt, (set_is_running false toy_monitor_0,
             toy_trace_0 ++ [Pull 1 40 toy_frame_1])).
Proof.
  destruct (stop_after_current_frame (ops := toy_ops)
              (Some toy_writer) (Some toy_drawer) stop_during_0
              [] 0 toy_frame_0 [(40, toy_frame_1)] toy_start
              (set_is_running true toy_monitor, [])
              (toy_monitor_0, toy_trace_0) eq_refl eq_refl) as [Hrun _].
  - intros l Hl. simpl in Hl. lia.
  - reflexivity.
  - reflexivity.
  - exact toy_frame_0_ok.
  - exact Hrun.
Defined.

Lemma sink_calls_per_frame_witness :
  exists results units,
    pool_map (TrackerFrame_run (ops := toy_ops) {| t := 0; frame := toy_frame_0 |})
      (_unit_trackers toy_monitor) = (Ok results, units)
    /\ toy_trace_0
       = [Pull 0 0 toy_frame_0] ++ [TrackAll 0 toy_frame_0]
         ++ (map (fun r => Write 0 (result_roi r) (fst (fst r)))
                 (List.filter has_rows results) ++ [Flush 0 toy_frame_0])
         ++ [Draw toy_frame_0 (_last_positions toy_monitor_0)
               (_unit_trackers toy_monitor_0)].
Proof.
  destruct (sink_calls_per_frame (ops := toy_ops) _ _ _ _ _ _ _ _ toy_frame_0_ok)
    as (results & units & Hpool & Htrace).
  exists results, units. split; [exact Hpool | exact Htrace].
Defined.

Lemma last_positions_after_frame_witness :
  _last_positions toy_monitor_0 !! 2 = Some [].
Proof.
  destruct (last_positions_after_frame (ops := toy_ops) _ _ _ _ _ _ _ _ toy_frame_0_ok)
    with (k := 1%nat) (u := {| unit_roi := 2; unit_stimulator := None; unit_last := [] |})
    as (data_rows & u' & Htrack & Hu' & Hempty & _).
  - change (NoDup [1; 2]). apply (bool_decide_unpack _). reflexivity.
  - reflexivity.
  - vm_compute in Htrack. injection Htrack as <- <-.
    apply Hempty. reflexivity.
Defined.

Lemma Monitor_init_spec_witness :
  Monitor_init (ops := toy_ops) toy_camera tt (Some [1; 2]) (Some [tt])
  = Raise (ValueError "You should have one interactor per ROI").
Proof.
  destruct (Monitor_init_spec (ops := toy_ops) toy_camera tt) as (_ & Hmismatch & _).
  apply Hmismatch. simpl. lia.
Defined.

(** * Further properties of the interactors *)








Lemma SleepDep_act_inv (history : nat -> Tracker) (start : SleepDepInteractor) j :
  acts (decision history start j) = true ->
  _t0 (fields (state_before history start (S j))) = None
  /\ exists t0 now,
       _t0 (fields (state_before history start j)) = Some t0
       /\ py_index_neg (times (history j)) 1 = Some now
       /\ now - t0 > _inactivity_time_threshold (fields start).
Proof.
  intros Hact.
  destruct (config_kept history start j) as (Hthr & _ & _).
  destruct (SleepDep_step _ _ _ _ (evaluate_step history start j))
    as (_ & _ & _ & Hcases).
  destruct Hcases as [[Hno _] | [(Hno & _) | [(_ & Hunset & t0 & now & Ht0 & Hnow & Hold)
                     | [Hno _]]]]; try congruence.
  split; [exact Hunset|]. exists t0, now. rewrite <- Hthr. auto.
Qed.

(** With time stamps that never go back, two evaluations that return
    "act" are more than the inactivity threshold apart: the interface is
    driven at most once per threshold period. *)
Theorem SleepDep_acts_spaced (history : nat -> Tracker) (start : SleepDepInteractor)
    i j now_i now_j :
  _t0 (fields start) = None ->
  (forall m n a b, (m <= n)%nat ->
     py_index_neg (times (history m)) 1 = Some a ->
     py_index_neg (times (history n)) 1 = Some b -> a <= b) ->
  (i < j)%nat ->
  acts (decision history start i) = true ->
  acts (decision history start j) = true ->
  py_index_neg (times (history i)) 1 = Some now_i ->
  py_index_neg (times (history j)) 1 = Some now_j ->
  now_j - now_i > _inactivity_time_threshold (fields start).
Proof.
  intros Hstart Hmono Hij Hact_i Hact_j Hnow_i Hnow_j.
  destruct (SleepDep_act_inv history start i Hact_i) as (Hunset_i & _).
  destruct (SleepDep_act_inv history start j Hact_j)
    as (_ & t0 & now & Ht0 & Hnow & Hold).
  rewrite Hnow_j in Hnow. injection Hnow as <-.
  destruct (t0_origin history start j t0 Hstart Ht0)
    as (k & Hk & _ & Hk1 & Hkt & Hbetween).
  assert (Hik : (i < k)%nat).
  { destruct (lt_eq_lt_dec i k) as [[Hlt | ->] | Hgt]; [exact Hlt | congruence |].
    destruct (Hbetween i) as [Hno _]; [lia | congruence]. }
  assert (now_i <= t0) by (apply (Hmono i k); [lia | assumption..]).
  lia.
Qed.

Lemma still_history_now n :
  py_index_neg (times (still_history n)) 1 = Some (50 * Z.of_nat (n + 1)).
Proof.
  unfold py_index_neg, still_history. simpl times.
  rewrite length_map, length_seq. case_decide; [|lia].
  rewrite list_lookup_fmap, lookup_seq_lt by lia. simpl. do 3 f_equal. lia.
Qed.

Lemma still_history_acts :
  acts (decision still_history fresh_sleep_dep 2) = true
  /\ acts (decision still_history fresh_sleep_dep 5) = true.
Proof. split; vm_compute; reflexivity. Qed.

Lemma SleepDep_acts_spaced_witness :
  50 * Z.of_nat (5 + 1) - 50 * Z.of_nat (2 + 1) > 90.
Proof.
  apply (SleepDep_acts_spaced still_history fresh_sleep_dep 2 5 _ _ eq_refl).
  - intros m n a b Hmn Ha Hb. rewrite still_history_now in Ha, Hb.
    injection Ha as <-. injection Hb as <-. lia.
  - lia.
  - apply still_history_acts.
  - apply still_history_acts.
  - apply still_history_now.
  - apply still_history_now.
Defined.




(** * Further properties of the movement classifier *)









(** * The prototype interactor *)

(** A call of a bound prototype interactor whose [_run] returns: the
    call returns the decision and never raises because of the dispatch.
    A process is started, with the parameters of the decision, only when
    the decision is to act, no earlier process is alive and a target is
    set; otherwise the request is dropped and the interactor stays as
    [_run] left it. *)
Theorem prototype_call_dispatch {T F} `{Prototype.Interactor T F}
    (self self1 : Prototype.BaseInteractor T F) tr interact kw :
  Prototype._tracker self = Some tr ->
  Prototype._run self = (Ok (interact, kw), self1) ->
  exists self2,
    Prototype.__call__ self = (Ok interact, self2)
    /\ Prototype._tracker self2 = Prototype._tracker self1
    /\ Prototype._target self2 = Prototype._target self1
    /\ Prototype.fields self2 = Prototype.fields self1
    /\ Prototype._subprocess self2 =
       if interact && negb (Prototype.is_alive (Prototype._subprocess self1))
          && bool_decide (is_Some (Prototype._target self1))
       then {| Prototype.is_alive := true; Prototype.started_with := Some kw |}
       else Prototype._subprocess self1.
Proof.
  intros Htr Hrun.
  unfold Prototype.__call__, Prototype.call_body, bind. rewrite Htr, Hrun.
  destruct interact; simpl.
  - unfold Prototype._interact_async.
    destruct (Prototype.is_alive (Prototype._subprocess self1)); simpl.
    + eexists. repeat split.
    + destruct (Prototype._target self1) as [target|] eqn:Htarget; simpl.
      * eexists. split; [reflexivity|]. simpl. auto.
      * eexists. split; [reflexivity|]. simpl. rewrite Htarget. auto.
  - eexists. repeat split.
Qed.

Lemma prototype_call_dispatch_witness :
  (exists self2, Prototype.__call__ (H := AlwaysInteract_methods) busy_interactor = (Ok true, self2)
     /\ Prototype._subprocess self2 = Prototype._subprocess busy_interactor)
  /\ (exists self2, Prototype.__call__ (H := AlwaysInteract_methods) idle_interactor = (Ok true, self2)
        /\ Prototype._subprocess self2
           = {| Prototype.is_alive := true;
                Prototype.started_with := Some {[ "freq"%string := 440 ]} |}).
Proof.
  split.
  - destruct (prototype_call_dispatch (H := AlwaysInteract_methods) busy_interactor busy_interactor history_1
                true {[ "freq"%string := 440 ]} eq_refl eq_refl)
      as (self2 & Hcall & _ & _ & _ & Hproc).
    exists self2. split; [exact Hcall | exact Hproc].
  - destruct (prototype_call_dispatch (H := AlwaysInteract_methods) idle_interactor idle_interactor history_1
                true {[ "freq"%string := 440 ]} eq_refl eq_refl)
      as (self2 & Hcall & _ & _ & _ & Hproc).
    exists self2. split; [exact Hcall | exact Hproc].
Defined.

(** * Further properties of the monitor *)

Section MonitorExtras.

Context {Frame ROI Stimulator TrackerClass TrackingUnit DataRow : Type}.
Context {ops : UnitOps Frame ROI Stimulator TrackerClass TrackingUnit DataRow}.

Local Abbreviation Mon := (Monitor Frame TrackingUnit DataRow).
Local Abbreviation State := (RunState Frame ROI TrackingUnit DataRow).
Local Abbreviation Results := (list (TrackingResult ROI DataRow)).

Implicit Types (st : State) (results : Results).

Lemma lookup_zip {A B} (l : list A) (k : list B) n a b :
  l !! n = Some a -> k !! n = Some b -> zip l k !! n = Some (a, b).
Proof.
  revert k n. induction l as [|a0 l IH]; intros [|b0 k] [|n]; simpl;
    try discriminate.
  - intros [= ->] [= ->]. reflexivity.
  - apply IH.
Qed.

(** Construction with as many interactors as regions: there is one
    tracking unit per region, the [k]-th unit being built from the
    [k]-th region and the [k]-th interactor, and the monitor starts
    neither running nor stopped, with an empty map of last positions and
    its counters at zero. *)
Theorem Monitor_init_pairs (camera : list (Z * Frame)) (tracker_class : TrackerClass)
    (rois : list ROI) (stimulators : list Stimulator) :
  length stimulators = length rois ->
  exists self,
    Monitor_init camera tracker_class (Some rois) (Some stimulators) = Ok self
    /\ length (_unit_trackers self) = length rois
    /\ (forall k r inter,
          rois !! k = Some r -> stimulators !! k = Some inter ->
          _unit_trackers self !! k
          = Some (TrackingUnit_init tracker_class r (Some inter)))
    /\ _force_stop self = false
    /\ _is_running self = false
    /\ last_positions self = ∅
    /\ last_frame_idx self = 0%nat
    /\ (last_time_stamp self == 0)%Q.
Proof.
  intros Hlen. unfold Monitor_init. case_decide; [|contradiction].
  eexists. split; [reflexivity|]. simpl. repeat split.
  - unfold zip. rewrite length_map, length_combine. lia.
  - intros k r inter Hr Hinter.
    rewrite list_lookup_fmap, (lookup_zip rois stimulators k r inter Hr Hinter).
    reflexivity.
Qed.

Lemma update_last_positions_dom results (m : Mon) :
  dom (_last_positions (update_last_positions results m))
  = dom (_last_positions m)
    ∪ list_to_set (map (fun r => idx (result_roi r)) results).
Proof.
  revert m. induction results as [|r rest IH]; intros m.
  - simpl. rewrite (right_id_L ∅ (∪)). reflexivity.
  - rewrite update_last_positions_cons, IH. simpl.
    rewrite dom_insert_L, (comm_L (∪) {[ idx (result_roi r) ]}), <- (assoc_L (∪)).
    reflexivity.
Qed.

(** Entries are added or replaced, never removed: after an iteration
    that completes, the keys of the map of last positions are the keys
    it had before and the identifiers of the regions of all tracking
    units, and the entry of any other key is the one it had before. *)
Theorem last_positions_keys result_writer drawer stop_called i ts img st st' :
  process_frame result_writer drawer stop_called i ts img st = (Ok tt, st') ->
  dom (_last_positions (fst st'))
  = dom (_last_positions (fst st))
    ∪ list_to_set (map (fun u => idx (roi u)) (_unit_trackers (fst st')))
  /\ forall key,
       key ∉ map (fun u => idx (roi u)) (_unit_trackers (fst st')) ->
       _last_positions (fst st') !! key = _last_positions (fst st) !! key.
Proof.
  intros Hframe.
  destruct (process_frame_ok _ _ _ _ _ _ _ _ Hframe)
    as (results & units & Hpool & Hmon & _).
  destruct (pool_map_ok _ _ _ _ Hpool) as [Hrois _].
  assert (Hunits : _unit_trackers (fst st') = units).
  { rewrite Hmon. unfold after_frame. simpl.
    destruct (update_last_positions_fields results
                (set_unit_trackers units
                   ((if stop_called then stop else fun m : Mon => m)
                      (set_current i ts img (fst st))))) as [_ ->].
    reflexivity. }
  assert (Hkeys : map (fun r => idx (result_roi r)) results
                  = map (fun u => idx (roi u)) units).
  { rewrite <- (map_map result_roi idx), Hrois, map_map. reflexivity. }
  rewrite Hunits, <- Hkeys, Hmon. unfold after_frame. simpl. split.
  - rewrite update_last_positions_dom. simpl. destruct stop_called; reflexivity.
  - intros key Hkey. rewrite update_last_positions_other by exact Hkey.
    simpl. destruct stop_called; reflexivity.
Qed.

(** A monitor that has been stopped stays stopped: [run] on it takes one
    frame from the camera, if the camera has one, processes nothing,
    returns, and leaves the stop flag set. *)
Theorem run_when_stopped result_writer drawer stops st :
  _force_stop (fst st) = true ->
  run result_writer drawer stops st
  = (Ok tt, (set_is_running false (fst st), snd st ++ next_pull 0 (_camera (fst st))))
  /\ _force_stop (fst (snd (run result_writer drawer stops st))) = true.
Proof.
  intros Hstop.
  assert (Hrun : run result_writer drawer stops st
                 = (Ok tt, (set_is_running false (fst st),
                            snd st ++ next_pull 0 (_camera (fst st))))).
  { unfold run. cbn [fst snd]. rewrite run_loop_stopped by exact Hstop.
    reflexivity. }
  split; [exact Hrun|]. rewrite Hrun. exact Hstop.
Qed.


Lemma update_last_positions_app results1 results2 (m : Mon) :
  update_last_positions (results1 ++ results2) m
  = update_last_positions results2 (update_last_positions results1 m).
Proof. unfold update_last_positions. apply fold_left_app. Qed.

Lemma write_events_app (w : ResultWriter Frame ROI DataRow) ts results1 results2 :
  write_events (TrackingUnit := TrackingUnit) (Some w) ts (results1 ++ results2)
  = write_events (Some w) ts results1 ++ write_events (Some w) ts results2.
Proof. unfold write_events. rewrite List.filter_app, map_app. reflexivity. Qed.

(** The aggregation loop stops at the first [write] that raises: the
    map has received the entries of the results up to that one, that one
    included, and the writer the calls up to the failing one. *)
Lemma aggregate_write_raises (w : ResultWriter Frame ROI DataRow) ts pre r post e :
  forall st,
  (forall r', r' ∈ pre -> has_rows r' = true ->
     write_raises w ts (result_roi r') (fst (fst r')) = None) ->
  has_rows r = true ->
  write_raises w ts (result_roi r) (fst (fst r)) = Some e ->
  aggregate (Some w) ts (pre ++ r :: post) st
  = (Raise e, (update_last_positions (pre ++ [r]) (fst st),
               snd st ++ write_events (Some w) ts (pre ++ [r]))).
Proof.
  induction pre as [|r0 pre IH]; intros st Hpre Hrows Hraise.
  - destruct r as [[data_rows region] abs_pos]. simpl app. cbn [aggregate].
    assert (Hlen : length data_rows <> 0%nat).
    { intros Hzero.
      assert (has_rows (data_rows, region, abs_pos) = false)
        by (apply has_rows_false; exact Hzero).
      congruence. }
    case_decide; [contradiction|].
    unfold bind, on_monitor, modify, call_out, bind, modify, raise. cbn [fst snd].
    unfold result_roi in Hraise. cbn [fst snd] in Hraise. rewrite Hraise.
    unfold write_events, update_last_positions, entry_of.
    cbn [List.filter fold_left map]. rewrite Hrows. reflexivity.
  - assert (Hrest : forall r', r' ∈ pre -> has_rows r' = true ->
              write_raises w ts (result_roi r') (fst (fst r')) = None).
    { intros r' Hin. apply Hpre. right. exact Hin. }
    rewrite <- !app_comm_cons. rewrite update_last_positions_cons.
    destruct r0 as [[data_rows region] abs_pos]. cbn [aggregate].
    case_decide as Hlen.
    + assert (Hr0 : has_rows (data_rows, region, abs_pos) = false)
        by (apply has_rows_false; exact Hlen).
      rewrite (write_events_skip _ _ _ _ Hr0). unfold entry_of. rewrite Hr0.
      unfold bind at 1, on_monitor, modify.
      rewrite (IH _ Hrest Hrows Hraise). reflexivity.
    + assert (Hr0 : has_rows (data_rows, region, abs_pos) = true).
      { destruct (has_rows (data_rows, region, abs_pos)) eqn:E; [reflexivity|].
        apply has_rows_false in E. contradiction. }
      rewrite (write_events_cons _ _ _ _ Hr0). unfold entry_of. rewrite Hr0.
      unfold bind at 1 2, on_monitor, modify, call_out, bind, modify.
      cbn [fst snd].
      assert (Hw : write_raises w ts region data_rows = None)
        by (apply (Hpre (data_rows, region, abs_pos)); [left | exact Hr0]).
      rewrite Hw. unfold ret.
      rewrite (IH _ Hrest Hrows Hraise). cbn [fst snd].
      rewrite <- app_assoc. reflexivity.
Qed.

Lemma update_last_positions_map results (m m' : Mon) :
  _last_positions m = _last_positions m' ->
  _last_positions (update_last_positions results m)
  = _last_positions (update_last_positions results m').
Proof.
  revert m m'. induction results as [|r rest IH]; intros m m' Hmap; [exact Hmap|].
  rewrite !update_last_positions_cons. apply IH. simpl. rewrite Hmap. reflexivity.
Qed.

(** A [write] that raises aborts the frame.  The exception leaves
    [process_frame]; the writer has received the rows of the units up to
    the failing one and is not flushed, the drawer is not called; the
    map of last positions has already been updated for the regions up to
    the failing one, that one included, and not for the regions after
    it. *)
Theorem write_failure_aborts_frame (w : ResultWriter Frame ROI DataRow) drawer
    stop_called i ts img st pre r post units e :
  pool_map (TrackerFrame_run {| t := ts; frame := img |}) (_unit_trackers (fst st))
  = (Ok (pre ++ r :: post), units) ->
  (forall r', r' ∈ pre -> has_rows r' = true ->
     write_raises w ts (result_roi r') (fst (fst r')) = None) ->
  has_rows r = true ->
  write_raises w ts (result_roi r) (fst (fst r)) = Some e ->
  exists st',
    process_frame (Some w) drawer stop_called i ts img st = (Raise e, st')
    /\ snd st' = snd st ++ [TrackAll ts img] ++ write_events (Some w) ts (pre ++ [r])
    /\ _last_positions (fst st')
       = _last_positions (update_last_positions (pre ++ [r]) (fst st)).
Proof.
  intros Hpool Hpre Hrows Hraise.
  unfold process_frame.
  assert (Hunits : _unit_trackers
             ((if stop_called then stop else fun m : Mon => m)
                (set_current i ts img (fst st)))
           = _unit_trackers (fst st)) by (destruct stop_called; reflexivity).
  set (m1 := (if stop_called then stop else fun m : Mon => m)
               (set_current i ts img (fst st))) in *.
  assert (Hstart :
    (on_monitor (set_current i ts img);;
     (if stop_called then on_monitor stop else ret tt);;
     ret tt) st = (Ok tt, (m1, snd st))).
  { subst m1. destruct stop_called; reflexivity. }
  eexists. split.
  - unfold bind at 1 2. unfold bind at 1 2 in Hstart.
    unfold on_monitor at 1, modify at 1. unfold on_monitor at 1, modify at 1 in Hstart.
    destruct ((if stop_called then on_monitor stop else ret tt)
                (set_current i ts img (fst st), snd st)) as [[[]|e0] st0] eqn:Hstop;
      [|destruct stop_called; discriminate Hstop].
    assert (Hst0 : st0 = (m1, snd st)).
    { subst m1. destruct stop_called; injection Hstop as <-; reflexivity. }
    subst st0. unfold bind at 1. unfold track_units. cbn [fst snd t frame].
    rewrite Hunits, Hpool. unfold bind at 1.
    rewrite (aggregate_write_raises w ts pre r post e _ Hpre Hrows Hraise).
    reflexivity.
  - cbn [fst snd]. split.
    + rewrite <- app_assoc. reflexivity.
    + apply update_last_positions_map. subst m1. destruct stop_called; reflexivity.
Qed.

Lemma aggregate_without_writer ts results st :
  aggregate None ts results st = (Ok tt, (update_last_positions results (fst st), snd st)).
Proof.
  revert st. induction results as [|[[data_rows region] abs_pos] rest IH]; intros st.
  - destruct st; reflexivity.
  - rewrite update_last_positions_cons. cbn [aggregate].
    unfold entry_of, has_rows, result_roi. cbn [fst snd].
    case_decide as Hlen; unfold bind, on_monitor, modify, ret; rewrite IH; cbn [fst snd].
    + rewrite Hlen. reflexivity.
    + apply Nat.eqb_neq in Hlen. rewrite Hlen. reflexivity.
Qed.

Lemma process_frame_without_sinks stop_called i ts img st r st' :
  process_frame None None stop_called i ts img st = (r, st') ->
  snd st' = snd st ++ [TrackAll ts img].
Proof.
  unfold process_frame, bind, on_monitor, modify, track_units, ret.
  destruct stop_called; cbn [fst snd t frame];
    (destruct (pool_map _ _) as [[results|e] units];
     [rewrite aggregate_without_writer | ]; intros [= <- <-]; reflexivity).
Qed.

Lemma run_loop_without_sinks stops camera : forall i st r st',
  run_loop None None stops i camera st = (r, st') ->
  exists added,
    snd st' = snd st ++ added /\ List.filter is_sink_call added = [].
Proof.
  induction camera as [|[ts img] rest IH]; intros i st r st'.
  - simpl. intros [= <- <-]. exists []. rewrite app_nil_r. split; reflexivity.
  - destruct (_force_stop (fst st)) eqn:Hflag.
    + rewrite run_loop_stopped by exact Hflag. intros [= <- <-].
      exists [Pull i ts img]. split; reflexivity.
    + rewrite run_loop_cons by exact Hflag.
      destruct (process_frame None None (stops i) i ts img _) as [[[]|e] st2] eqn:Hframe;
        apply process_frame_without_sinks in Hframe; cbn [fst snd] in Hframe.
      * intros Hrest. destruct (IH _ _ _ _ Hrest) as (added & Htrace & Hnone).
        exists ([Pull i ts img; TrackAll ts img] ++ added).
        rewrite Htrace, Hframe, <- !app_assoc. split; [reflexivity|].
        rewrite List.filter_app, Hnone. reflexivity.
      * intros [= <- <-]. exists [Pull i ts img; TrackAll ts img].
        rewrite Hframe, <- app_assoc. split; reflexivity.
Qed.

(** Without result writer and without drawer, a run calls no sink: all
    it calls is the camera and the tracking units, however the run
    ends. *)
Theorem run_without_sinks stops st r st' :
  run None None stops st = (r, st') ->
  exists added,
    snd st' = snd st ++ added /\ List.filter is_sink_call added = [].
Proof.
  unfold run. cbn [fst snd].
  destruct (run_loop None None stops 0 (_camera (set_is_running true (fst st))) _)
    as [r1 st1] eqn:Hloop.
  intros [= <- <-]. cbn [snd].
  exact (run_loop_without_sinks _ _ _ _ _ _ Hloop).
Qed.

Lemma update_last_positions_counters results (m : Mon) :
  _last_frame_idx (update_last_positions results m) = _last_frame_idx m
  /\ _last_time_stamp (update_last_positions results m) = _last_time_stamp m
  /\ _frame_buffer (update_last_positions results m) = _frame_buffer m
  /\ _is_running (update_last_positions results m) = _is_running m.
Proof.
  revert m. induction results as [|r rest IH]; intros m; [repeat split|].
  rewrite update_last_positions_cons.
  destruct (IH (set_last_position (idx (result_roi r)) (entry_of r) m))
    as (-> & -> & -> & ->).
  repeat split.
Qed.

Lemma after_frame_counters stop_called i ts img results units (m : Mon) :
  _last_frame_idx (after_frame stop_called i ts img results units m) = i
  /\ _last_time_stamp (after_frame stop_called i ts img results units m) = ts
  /\ _frame_buffer (after_frame stop_called i ts img results units m) = Some img
  /\ _last_t (after_frame stop_called i ts img results units m) = Some ts
  /\ _is_running (after_frame stop_called i ts img results units m) = _is_running m.
Proof.
  unfold after_frame. simpl.
  destruct (update_last_positions_counters results
              (set_unit_trackers units
                 ((if stop_called then stop else fun m : Mon => m)
                    (set_current i ts img m)))) as (-> & -> & -> & ->).
  destruct stop_called; repeat split.
Qed.

Lemma write_events_sinks (result_writer : option (ResultWriter Frame ROI DataRow))
    ts results :
  List.filter is_pull (write_events (TrackingUnit := TrackingUnit) result_writer ts results)
  = []
  /\ List.filter is_track_all
       (write_events (TrackingUnit := TrackingUnit) result_writer ts results) = [].
Proof.
  unfold write_events. destruct result_writer; [|split; reflexivity].
  induction (List.filter has_rows results) as [|res rest [IH1 IH2]]; split;
    simpl; assumption || reflexivity.
Qed.

Lemma frame_events_kinds result_writer drawer ts img results (m : Mon) :
  List.filter is_pull (frame_events result_writer drawer ts img results m) = []
  /\ List.filter is_track_all (frame_events result_writer drawer ts img results m)
     = [TrackAll ts img].
Proof.
  unfold frame_events. cbn [List.filter is_pull is_track_all].
  rewrite !List.filter_app.
  destruct (write_events_sinks result_writer ts results) as [-> ->].
  unfold flush_events, draw_events.
  destruct result_writer, drawer; split; reflexivity.
Qed.

(** The loop, when nobody calls [stop()] and nothing raises: the frames
    are taken from the camera one by one, each one after the previous
    one has been tracked, and every frame is tracked. *)
Lemma run_loop_all result_writer drawer stops camera : forall i st st',
  _force_stop (fst st) = false ->
  (forall l, (i <= l < i + length camera)%nat -> stops l = false) ->
  run_loop result_writer drawer stops i camera st = (Ok tt, st') ->
  (exists added,
     snd st' = snd st ++ added
     /\ List.filter is_pull added = pull_events i camera
     /\ List.filter is_track_all added
        = map (fun tf => TrackAll (fst tf) (snd tf)) camera)
  /\ _force_stop (fst st') = false
  /\ _is_running (fst st') = _is_running (fst st)
  /\ forall ts img, last camera = Some (ts, img) ->
       _last_frame_idx (fst st') = (i + length camera - 1)%nat
       /\ _last_time_stamp (fst st') = ts
       /\ _frame_buffer (fst st') = Some img
       /\ _last_t (fst st') = Some ts.
Proof.
  induction camera as [|[ts0 img0] rest IH]; intros i st st' Hgo Hquiet.
  - simpl. intros [= <-]. split; [|split; [exact Hgo | split; [reflexivity|]]].
    + exists []. rewrite app_nil_r. repeat split.
    + intros ts img Hlast. discriminate Hlast.
  - rewrite run_loop_cons by exact Hgo. rewrite (Hquiet i) by (simpl; lia).
    destruct (process_frame result_writer drawer false i ts0 img0 _)
      as [[[]|e] st1] eqn:Hframe; [|discriminate].
    destruct (process_frame_ok _ _ _ _ _ _ _ _ Hframe)
      as (results & units & _ & Hmon & Htrace).
    cbn [fst snd] in Hmon, Htrace.
    destruct (after_frame_counters false i ts0 img0 results units (fst st))
      as (Hidx & Hts & Hbuf & Hlast_t & Hrunning).
    assert (Hgo1 : _force_stop (fst st1) = false).
    { rewrite Hmon, after_frame_force_stop. simpl. exact Hgo. }
    intros Hrest.
    destruct (IH (S i) st1 st' Hgo1) as ((added & Hadded & Hpulls & Htracks)
                                         & Hgo' & Hrun' & Hlast);
      [intros l Hl; apply Hquiet; simpl; lia | exact Hrest |].
    destruct (frame_events_kinds result_writer drawer ts0 img0 results (fst st1))
      as [Hk1 Hk2].
    split; [|split; [exact Hgo' | split]].
    + exists ([Pull i ts0 img0]
              ++ frame_events result_writer drawer ts0 img0 results (fst st1)
              ++ added).
      rewrite Hadded, Htrace, <- !app_assoc. split; [reflexivity|].
      rewrite !List.filter_app, Hk1, Hk2, Hpulls, Htracks. split; reflexivity.
    + rewrite Hrun', Hmon. exact Hrunning.
    + intros ts img Hcam. destruct rest as [|next rest'].
      * simpl in Hcam. injection Hcam as <- <-. simpl in Hrest.
        injection Hrest as <-. rewrite Hmon. simpl length.
        replace (i + 1 - 1)%nat with i by lia. auto.
      * destruct (Hlast ts img) as (H1 & H2 & H3 & H4); [exact Hcam|].
        simpl length in *. replace (i + S (S (length rest')) - 1)%nat
          with (S i + S (length rest') - 1)%nat by lia. auto.
Qed.

(** A run during which nobody calls [stop()] and nothing raises: every
    frame of the camera is taken, in order and numbered from 0, and
    tracked once; afterwards the monitor is not running, not stopped,
    and its counters are those of the last frame. *)
Theorem run_processes_every_frame result_writer drawer stops st st' :
  _force_stop (fst st) = false ->
  (forall l, (l < length (_camera (fst st)))%nat -> stops l = false) ->
  run result_writer drawer stops st = (Ok tt, st') ->
  (exists added,
     snd st' = snd st ++ added
     /\ List.filter is_pull added = pull_events 0 (_camera (fst st))
     /\ List.filter is_track_all added
        = map (fun tf => TrackAll (fst tf) (snd tf)) (_camera (fst st)))
  /\ _force_stop (fst st') = false
  /\ _is_running (fst st') = false
  /\ forall ts img, last (_camera (fst st)) = Some (ts, img) ->
       last_frame_idx (fst st') = (length (_camera (fst st)) - 1)%nat
       /\ (last_time_stamp (fst st') == inject_Z ts / inject_Z 1000)%Q
       /\ _frame_buffer (fst st') = Some img
       /\ _last_t (fst st') = Some ts.
Proof.
  intros Hgo Hquiet. unfold run. cbn [fst snd].
  destruct (run_loop result_writer drawer stops 0
              (_camera (set_is_running true (fst st))) _) as [r1 st1] eqn:Hloop.
  intros [= -> <-]. cbn [fst snd].
  change (_camera (set_is_running true (fst st))) with (_camera (fst st)) in Hloop.
  assert (Hquiet' : forall l, (0 <= l < 0 + length (_camera (fst st)))%nat ->
                      stops l = false) by (intros l Hl; apply Hquiet; lia).
  destruct (run_loop_all result_writer drawer stops (_camera (fst st)) 0%nat
              (set_is_running true (fst st), snd st) st1 Hgo Hquiet' Hloop)
    as (Hadded & Hgo' & _ & Hlast).
  split; [exact Hadded|]. split; [exact Hgo'|]. split; [reflexivity|].
  intros ts img Hcam. destruct (Hlast ts img Hcam) as (H1 & H2 & H3 & H4).
  unfold last_frame_idx, last_time_stamp. simpl. rewrite H1, H2, H3, H4.
  repeat split; reflexivity.
Qed.

End MonitorExtras.

Lemma Monitor_init_pairs_witness :
  exists self,
    Monitor_init (ops := toy_ops) toy_camera tt (Some [1; 2]) (Some [tt; tt]) = Ok self
    /\ _unit_trackers self !! 1%nat
       = Some {| unit_roi := 2; unit_stimulator := Some tt; unit_last := [] |}.
Proof.
  destruct (Monitor_init_pairs (ops := toy_ops) toy_camera tt [1; 2] [tt; tt] eq_refl)
    as (self & Hinit & _ & Hunits & _).
  exists self. split; [exact Hinit|].
  apply (Hunits 1%nat 2 tt); reflexivity.
Defined.

Lemma last_positions_keys_witness :
  dom (_last_positions toy_monitor_0)
  = dom (_last_positions (set_is_running true toy_monitor))
    ∪ list_to_set (map (fun u => idx (roi u)) (_unit_trackers toy_monitor_0)).
Proof.
  exact (proj1 (last_positions_keys (ops := toy_ops) _ _ _ _ _ _ _ _ toy_frame_0_ok)).
Defined.

Lemma run_when_stopped_witness :
  run (ops := toy_ops) (Some toy_writer) (Some toy_drawer) never_stop
      (stop toy_monitor, [])
  = (Ok tt, (set_is_running false (stop toy_monitor), [Pull 0 0 toy_frame_0])).
Proof.
  exact (proj1 (run_when_stopped (ops := toy_ops) (Some toy_writer) (Some toy_drawer)
                  never_stop (stop toy_monitor, []) eq_refl)).
Defined.



Lemma write_failure_aborts_frame_witness :
  exists st',
    process_frame (ops := toy_ops) (Some picky_writer) (Some toy_drawer) false 0 0
      toy_frame_2 toy_start
    = (Raise (ExternalError "region 2 refused"), st')
    /\ snd st' = [TrackAll 0 toy_frame_2; Write 0 1 [12]; Write 0 2 [20]].
Proof.
  destruct (write_failure_aborts_frame (ops := toy_ops) picky_writer (Some toy_drawer)
              false 0 0 toy_frame_2 toy_start [([12], 1, [12])] ([20], 2, [20]) []
              [ {| unit_roi := 1; unit_stimulator := None; unit_last := [12] |};
                {| unit_roi := 2; unit_stimulator := None; unit_last := [20] |} ]
              (ExternalError "region 2 refused"))
    as (st' & Hframe & Htrace & _).
  - reflexivity.
  - intros r' Hin _. apply list_elem_of_singleton in Hin. subst r'. reflexivity.
  - reflexivity.
  - reflexivity.
  - exists st'. split; [exact Hframe | exact Htrace].
Defined.

Lemma run_without_sinks_witness :
  exists added,
    snd (snd (run (ops := toy_ops) None None never_stop toy_start)) = [] ++ added
    /\ List.filter is_sink_call added = [].
Proof.
  apply (run_without_sinks (ops := toy_ops) never_stop toy_start
           (fst (run (ops := toy_ops) None None never_stop toy_start))).
  apply surjective_pairing.
Defined.

Lemma toy_run_complete :
  exists st',
    run (ops := toy_ops) (Some toy_writer) (Some toy_drawer) never_stop toy_start
    = (Ok tt, st').
Proof. eexists. vm_compute. reflexivity. Qed.

Lemma run_processes_every_frame_witness :
  exists st',
    run (ops := toy_ops) (Some toy_writer) (Some toy_drawer) never_stop toy_start
    = (Ok tt, st')
    /\ last_frame_idx (fst st') = 1%nat
    /\ _last_t (fst st') = Some 40.
Proof.
  destruct toy_run_complete as (st' & Hrun).
  exists st'. split; [exact Hrun|].
  destruct (run_processes_every_frame (ops := toy_ops)
              (Some toy_writer) (Some toy_drawer) never_stop toy_start st' eq_refl
              (fun l _ => eq_refl) Hrun) as (_ & _ & _ & Hlast).
  destruct (Hlast 40 toy_frame_1 eq_refl) as (Hidx & _ & _ & Ht).
  split; [exact Hidx | exact Ht].
Defined.

(** * The shield output *)

Module ShieldProps.
Import Shield.

Lemma filter_snoc {A} (f : A -> bool) (l : list A) (a : A) :
  List.filter f (l ++ [a]) = List.filter f l ++ (if f a then [a] else []).
Proof. rewrite List.filter_app. reflexivity. Qed.

(** What the probe does: it succeeds exactly when the bus opens, the
    write goes through and the byte read is 0x50; it never calls the
    GPIO library. *)
Lemma probe_spec (bus : SMBus) hw :
  exists hw1,
    snd (probe bus hw) = hw1
    /\ List.filter is_gpio hw1 = List.filter is_gpio hw
    /\ (fst (probe bus hw) = Ok tt <->
        open_raises bus = None
        /\ write_byte_raises bus 41 178 = None
        /\ read_byte bus 41 = Ok 80).
Proof.
  eexists. split; [reflexivity|].
  unfold probe, call_lib, log, bind, modify, raise, ret.
  change (Z.lor 160 18) with 178.
  destruct (open_raises bus) as [e|]; cbn [fst snd].
  { rewrite filter_snoc. cbn [is_gpio]. rewrite app_nil_r. split; [reflexivity|].
    split; [discriminate | intros (H & _); discriminate]. }
  destruct (write_byte_raises bus 41 178) as [e|]; cbn [fst snd].
  { rewrite !filter_snoc. cbn [is_gpio]. rewrite !app_nil_r. split; [reflexivity|].
    split; [discriminate | intros (_ & H & _); discriminate]. }
  destruct (read_byte bus 41) as [id|e]; cbn [fst snd].
  - destruct (id =? 80) eqn:Hid; cbn [negb fst snd]; rewrite !filter_snoc;
      cbn [is_gpio]; rewrite !app_nil_r; (split; [reflexivity|]).
    + apply Z.eqb_eq in Hid. subst id. split; auto.
    + apply Z.eqb_neq in Hid. split; [discriminate|].
      intros (_ & _ & [= H]). contradiction.
  - rewrite !filter_snoc. cbn [is_gpio]. rewrite !app_nil_r. split; [reflexivity|].
    split; [discriminate | intros (_ & _ & H); discriminate].
Qed.

Lemma switch_detached (self : ShieldOutput) calls : forall hw,
  _shield_attached self = false ->
  exists hw2,
    switch self calls hw = (Ok tt, hw2)
    /\ List.filter is_gpio hw2 = List.filter is_gpio hw
    /\ length hw2 = (length hw + length calls)%nat.
Proof.
  intros hw Hoff. revert hw.
  induction calls as [|c rest IH]; intros hw.
  - exists hw. simpl. repeat split. lia.
  - simpl. unfold bind. 
    assert (Hcall : exists w, (if c then on self else off self) hw
                              = (Ok tt, hw ++ [LogWarning w])).
    { destruct c; unfold on, off, output, log, modify; rewrite Hoff; eauto. }
    destruct Hcall as (w & ->).
    destruct (IH (hw ++ [LogWarning w])) as (hw2 & Hrun & Hgpio & Hlen).
    exists hw2. split; [exact Hrun|]. split.
    + rewrite Hgpio, filter_snoc. cbn [is_gpio]. rewrite app_nil_r. reflexivity.
    + rewrite Hlen, length_app. simpl. lia.
Qed.

(** A shield that cannot be found is never driven.  When the check is
    asked for and the probe does not find the identifier 0x50 (the bus
    does not open, the write or the read raises, or another byte comes
    back), the constructor still returns an object, marked as not
    attached and without pin; neither the constructor nor any sequence
    of [on] and [off] calls on that object calls the GPIO library, and
    none of these calls raises: each one only logs a warning. *)
Theorem absent_shield_never_driven (bus : SMBus) shield_pin gpio_pin hw :
  shield_pin <> None \/ gpio_pin <> None ->
  ~ (open_raises bus = None
     /\ write_byte_raises bus 41 178 = None
     /\ read_byte bus 41 = Ok 80) ->
  exists hw1,
    ShieldOutput_init bus shield_pin gpio_pin true hw
    = (Ok {| _shield_attached := false; _gpio_pin := None |}, hw1)
    /\ List.filter is_gpio hw1 = List.filter is_gpio hw
    /\ forall calls, exists hw2,
         switch {| _shield_attached := false; _gpio_pin := None |} calls hw1
         = (Ok tt, hw2)
         /\ List.filter is_gpio hw2 = List.filter is_gpio hw
         /\ length hw2 = (length hw1 + length calls)%nat.
Proof.
  intros Hpin Hprobe.
  destruct (probe_spec bus hw) as (hwp & Hsnd & Hgpio & Hok).
  unfold ShieldOutput_init.
  assert (Hguard : bool_decide (shield_pin = None) && bool_decide (gpio_pin = None)
                   = false).
  { destruct Hpin as [H|H]; [rewrite (bool_decide_eq_false_2 _ H); reflexivity|].
    rewrite (bool_decide_eq_false_2 _ H). apply andb_false_r. }
  rewrite Hguard.
  destruct (probe bus hw) as [[[]|e] hwq] eqn:Hp; simpl in Hsnd, Hok; subst hwq.
  { exfalso. apply Hprobe. apply Hok. reflexivity. }
  simpl. eexists. split; [reflexivity|].
  assert (Hg1 : List.filter is_gpio (hwp ++ [LogWarning no_shield_msg])
                = List.filter is_gpio hw)
    by (rewrite filter_snoc; cbn [is_gpio]; rewrite app_nil_r; exact Hgpio).
  split; [exact Hg1|].
  intros calls.
  destruct (switch_detached {| _shield_attached := false; _gpio_pin := None |}
              calls (hwp ++ [LogWarning no_shield_msg]) eq_refl)
    as (hw2 & Hrun & Hg2 & Hlen).
  exists hw2. split; [exact Hrun|]. split; [congruence | exact Hlen].
Qed.

Lemma absent_shield_never_driven_witness :
  exists hw1,
    ShieldOutput_init other_bus (Some 0) None true []
    = (Ok {| _shield_attached := false; _gpio_pin := None |}, hw1)
    /\ List.filter is_gpio hw1 = [].
Proof.
  destruct (absent_shield_never_driven other_bus (Some 0) None [])
    as (hw1 & Hinit & Hgpio & _).
  - left. discriminate.
  - intros (_ & _ & H). discriminate H.
  - exists hw1. split; [exact Hinit | exact Hgpio].
Defined.

Lemma pin_level_snoc pin hw e :
  pin_level pin (hw ++ [e])
  = match e with
    | GpioSetup p v | GpioOutput p v => if p =? pin then Some v else pin_level pin hw
    | _ => pin_level pin hw
    end.
Proof. unfold pin_level. rewrite fold_left_app. reflexivity. Qed.

Lemma pin_level_filter pin hw :
  pin_level pin hw = pin_level pin (List.filter is_gpio hw).
Proof.
  induction hw as [|e hw IH] using rev_ind; [reflexivity|].
  rewrite filter_snoc, pin_level_snoc.
  destruct e; cbn [is_gpio]; rewrite ?app_nil_r, ?pin_level_snoc; rewrite IH;
    reflexivity.
Qed.

Lemma switch_attached pin calls : forall hw,
  exists hw2,
    switch {| _shield_attached := true; _gpio_pin := Some pin |} calls hw = (Ok tt, hw2)
    /\ pin_level pin hw2
       = match last calls with
         | Some c => Some (if c then HIGH else LOW)
         | None => pin_level pin hw
         end
    /\ forall other, other <> pin -> pin_level other hw2 = pin_level other hw.
Proof.
  induction calls as [|c rest IH]; intros hw.
  - exists hw. simpl. repeat split.
  - set (self := {| _shield_attached := true; _gpio_pin := Some pin |}).
    assert (Hcall : (if c then on self else off self) hw
                    = (Ok tt, hw ++ [GpioOutput pin (if c then HIGH else LOW)]))
      by (destruct c; reflexivity).
    destruct (IH (hw ++ [GpioOutput pin (if c then HIGH else LOW)]))
      as (hw2 & Hrun & Hlevel & Hother).
    exists hw2. cbn [switch]. unfold bind. rewrite Hcall. split; [exact Hrun|].
    split.
    + rewrite Hlevel. destruct rest as [|c' rest'].
      * simpl. rewrite pin_level_snoc, Z.eqb_refl. reflexivity.
      * change (last (c :: c' :: rest')) with (last (c' :: rest')).
        destruct (last (c' :: rest')) eqn:Hlast; [reflexivity|].
        apply last_None in Hlast. discriminate Hlast.
    + intros other Hne. rewrite (Hother other Hne), pin_level_snoc.
      apply Z.eqb_neq in Hne. rewrite Z.eqb_sym, Hne. reflexivity.
Qed.

(** What the constructor does once the check has passed or was not
    asked for: the pin is [gpio_pin] when it is given, whatever
    [shield_pin] is, and else the entry of the table that [shield_pin]
    indexes; an index outside the table raises [IndexError] before the
    GPIO library is called. *)
Lemma init_checked (bus : SMBus) shield_pin gpio_pin check_shield hw :
  shield_pin <> None \/ gpio_pin <> None ->
  check_shield = false
  \/ (open_raises bus = None /\ write_byte_raises bus 41 178 = None
      /\ read_byte bus 41 = Ok 80) ->
  exists hw0,
    List.filter is_gpio hw0 = List.filter is_gpio hw
    /\ ShieldOutput_init bus shield_pin gpio_pin check_shield hw
       = match (match gpio_pin with
                | Some pin => Some pin
                | None => shield_pin ≫= py_index shield_pins
                end) with
         | Some pin =>
             (Ok {| _shield_attached := true; _gpio_pin := Some pin |},
              hw0 ++ [GpioSetmodeBoard; GpioSetup pin LOW])
         | None => (Raise IndexError, hw0)
         end.
Proof.
  intros Hpin Hpass. unfold ShieldOutput_init.
  assert (Hguard : bool_decide (shield_pin = None) && bool_decide (gpio_pin = None)
                   = false).
  { destruct Hpin as [H|H]; [rewrite (bool_decide_eq_false_2 _ H); reflexivity|].
    rewrite (bool_decide_eq_false_2 _ H). apply andb_false_r. }
  rewrite Hguard.
  assert (Hcheck : exists hw0,
            List.filter is_gpio hw0 = List.filter is_gpio hw
            /\ (if check_shield
                then match probe bus hw with
                     | (Ok _, hw) => (true, hw)
                     | (Raise _, hw) => (false, hw ++ [LogWarning no_shield_msg])
                     end
                else (true, hw)) = (true, hw0)).
  { destruct check_shield; [|exists hw; split; reflexivity].
    destruct Hpass as [Hpass|Hpass]; [discriminate|].
    destruct (probe_spec bus hw) as (hwp & Hsnd & Hgpio & Hok).
    apply Hok in Hpass.
    destruct (probe bus hw) as [r hwq]. simpl in Hsnd, Hpass. subst r hwq.
    exists hwp. split; [exact Hgpio | reflexivity]. }
  destruct Hcheck as (hw0 & Hgpio & ->). exists hw0. split; [exact Hgpio|].
  cbn [fst snd negb].
  destruct gpio_pin as [pin|].
  - cbv [bind log modify ret fst snd]. rewrite <- app_assoc. reflexivity.
  - destruct shield_pin as [i|]; [|destruct Hpin; contradiction].
    cbn [mbind option_bind]. destruct (py_index shield_pins i) as [pin|];
      cbv [bind log modify ret raise lift_option fst snd]; [|reflexivity].
    rewrite <- app_assoc. reflexivity.
Qed.

(** The table of shield pins is read as Python reads a list: indices 0
    to 4 give the pins 24, 26, 31, 29 and 7, indices -5 to -1 the same
    pins counted from the end, and any other index makes the
    constructor raise [IndexError] without calling the GPIO library.  A
    [gpio_pin] is used as it is, whatever [shield_pin] is. *)
Theorem shield_pin_table (bus : SMBus) check_shield hw (i : Z) :
  check_shield = false
  \/ (open_raises bus = None /\ write_byte_raises bus 41 178 = None
      /\ read_byte bus 41 = Ok 80) ->
  (-5 <= i < 5 ->
     exists pin,
       shield_pins !! Z.to_nat (i mod 5) = Some pin
       /\ fst (ShieldOutput_init bus (Some i) None check_shield hw)
          = Ok {| _shield_attached := true; _gpio_pin := Some pin |})
  /\ (~ -5 <= i < 5 ->
        fst (ShieldOutput_init bus (Some i) None check_shield hw) = Raise IndexError
        /\ List.filter is_gpio (snd (ShieldOutput_init bus (Some i) None check_shield hw))
           = List.filter is_gpio hw)
  /\ forall pin shield_pin,
       fst (ShieldOutput_init bus shield_pin (Some pin) check_shield hw)
       = Ok {| _shield_attached := true; _gpio_pin := Some pin |}.
Proof.
  intros Hpass. split; [|split].
  - intros Hrange.
    destruct (init_checked bus (Some i) None check_shield hw) as (hw0 & _ & ->);
      [left; discriminate | exact Hpass |].
    assert (Hi : i = -5 \/ i = -4 \/ i = -3 \/ i = -2 \/ i = -1
                 \/ i = 0 \/ i = 1 \/ i = 2 \/ i = 3 \/ i = 4) by lia.
    destruct Hi as [-> | [-> | [-> | [-> | [-> | [-> | [-> | [-> | [-> | ->]]]]]]]]];
      eexists; split; reflexivity.
  - intros Hout.
    destruct (init_checked bus (Some i) None check_shield hw) as (hw0 & Hgpio & ->);
      [left; discriminate | exact Hpass |].
    assert (Hnone : py_index shield_pins i = None).
    { unfold py_index. simpl length.
      destruct (0 <=? i) eqn:H0, (i <? Z.of_nat 5) eqn:H5; simpl;
        try (apply Z.leb_le in H0); try (apply Z.ltb_lt in H5);
        try (apply Z.leb_gt in H0); try (apply Z.ltb_ge in H5); try lia.
      - destruct (- Z.of_nat 5 <=? i) eqn:Hm; simpl; [|reflexivity].
        apply Z.leb_le in Hm. destruct (i <? 0) eqn:Hneg; [|reflexivity].
        apply Z.ltb_lt in Hneg. lia.
      - destruct (- Z.of_nat 5 <=? i) eqn:Hm; simpl; [|reflexivity].
        apply Z.leb_le in Hm. destruct (i <? 0) eqn:Hneg; [|reflexivity].
        apply Z.ltb_lt in Hneg. lia. }
    simpl. rewrite Hnone. split; [reflexivity | exact Hgpio].
  - intros pin shield_pin.
    destruct (init_checked bus shield_pin (Some pin) check_shield hw) as (hw0 & _ & ->);
      [right; discriminate | exact Hpass | reflexivity].
Qed.

Lemma shield_pin_table_witness :
  fst (ShieldOutput_init good_bus (Some (-1)) None true [])
  = Ok {| _shield_attached := true; _gpio_pin := Some 7 |}.
Proof.
  destruct (shield_pin_table good_bus true [] (-1)) as (Hin & _).
  - right. repeat split.
  - destruct Hin as (pin & Hpin & Hinit); [lia|].
    vm_compute in Hpin. injection Hpin as <-. exact Hinit.
Defined.

(** An attached shield output: the port is set up on the pin with level
    LOW, and after any sequence of [on] and [off] calls the level last
    given to the pin is that of the last call, HIGH for [on] and LOW for
    [off]; no call raises, and no other pin is ever given a level. *)
Theorem attached_shield_levels (bus : SMBus) shield_pin gpio_pin check_shield hw
    self hw1 :
  ShieldOutput_init bus shield_pin gpio_pin check_shield hw = (Ok self, hw1) ->
  _shield_attached self = true ->
  exists pin,
    self = {| _shield_attached := true; _gpio_pin := Some pin |}
    /\ pin_level pin hw1 = Some LOW
    /\ forall calls, exists hw2,
         switch self calls hw1 = (Ok tt, hw2)
         /\ pin_level pin hw2
            = Some (match last calls with Some true => HIGH | _ => LOW end)
         /\ forall other, other <> pin -> pin_level other hw2 = pin_level other hw.
Proof.
  intros Hinit Hattached.
  assert (Hshape : exists pin hw0,
            self = {| _shield_attached := true; _gpio_pin := Some pin |}
            /\ hw1 = hw0 ++ [GpioSetmodeBoard; GpioSetup pin LOW]
            /\ List.filter is_gpio hw0 = List.filter is_gpio hw).
  { revert Hinit. unfold ShieldOutput_init.
    destruct (bool_decide (shield_pin = None) && bool_decide (gpio_pin = None));
      [discriminate|].
    destruct (probe_spec bus hw) as (hwp & Hsnd & Hgpio & _).
    assert (Hcases : exists b hw0,
              (if check_shield
               then match probe bus hw with
                    | (Ok _, hw) => (true, hw)
                    | (Raise _, hw) => (false, hw ++ [LogWarning no_shield_msg])
                    end
               else (true, hw)) = (b, hw0)
              /\ (b = true -> List.filter is_gpio hw0 = List.filter is_gpio hw)).
    { destruct check_shield; [|exists true, hw; split; auto].
      destruct (probe bus hw) as [[[]|e] hwq]; simpl in Hsnd; subst hwq.
      - exists true, hwp. split; auto.
      - eexists false, _. split; [reflexivity | discriminate]. }
    destruct Hcases as (b & hw0 & -> & Hb). cbn [fst snd].
    destruct b; cbn [negb].
    - destruct gpio_pin as [pin|].
      + cbv [bind log modify ret fst snd].
        intros [= <- <-]. exists pin, hw0. rewrite <- app_assoc. auto.
      + destruct shield_pin as [i|]; [|discriminate].
        destruct (py_index shield_pins i) as [pin|];
          cbv [bind log modify ret raise lift_option fst snd]; [|discriminate].
        intros [= <- <-]. exists pin, hw0. rewrite <- app_assoc. auto.
    - intros [= <- <-]. discriminate Hattached. }
  destruct Hshape as (pin & hw0 & -> & -> & Hgpio).
  exists pin. split; [reflexivity|].
  assert (Hsetup : forall p,
            pin_level p (hw0 ++ [GpioSetmodeBoard; GpioSetup pin LOW])
            = if pin =? p then Some LOW else pin_level p hw).
  { intros p. change [GpioSetmodeBoard; GpioSetup pin LOW]
      with ([GpioSetmodeBoard] ++ [GpioSetup pin LOW]).
    rewrite app_assoc, !pin_level_snoc.
    rewrite (pin_level_filter p hw0), Hgpio, <- pin_level_filter. reflexivity. }
  split; [rewrite Hsetup, Z.eqb_refl; reflexivity|].
  intros calls.
  destruct (switch_attached pin calls (hw0 ++ [GpioSetmodeBoard; GpioSetup pin LOW]))
    as (hw2 & Hrun & Hlevel & Hother).
  exists hw2. split; [exact Hrun|]. split.
  - rewrite Hlevel. destruct (last calls) as [[]|]; try reflexivity.
    rewrite Hsetup, Z.eqb_refl. reflexivity.
  - intros other Hne. rewrite (Hother other Hne), Hsetup.
    apply Z.eqb_neq in Hne. rewrite Z.eqb_sym, Hne. reflexivity.
Qed.

Lemma good_shield_init :
  ShieldOutput_init good_bus (Some 2) None true []
  = (Ok {| _shield_attached := true; _gpio_pin := Some 31 |},
     [SMBusOpen 1; WriteByte 41 178; ReadByte 41; GpioSetmodeBoard; GpioSetup 31 LOW]).
Proof. reflexivity. Qed.

Lemma attached_shield_levels_witness :
  exists hw2,
    switch {| _shield_attached := true; _gpio_pin := Some 31 |} [true; false; true]
      [SMBusOpen 1; WriteByte 41 178; ReadByte 41; GpioSetmodeBoard; GpioSetup 31 LOW]
    = (Ok tt, hw2)
    /\ pin_level 31 hw2 = Some HIGH.
Proof.
  destruct (attached_shield_levels good_bus (Some 2) None true [] _ _
              good_shield_init eq_refl) as (pin & Hself & _ & Hcalls).
  injection Hself as <-.
  destruct (Hcalls [true; false; true]) as (hw2 & Hrun & Hlevel & _).
  exists hw2. split; [exact Hrun | exact Hlevel].
Defined.

End ShieldProps.
